(** * LazorKit playground: activity log, transaction history, storage adapter
      and double-click guards of [WalletDemo]

    Shallow embedding of the client-side state logic of the playground page
    (the [WalletDemo] component and its module-level localStorage helpers),
    together with the log helper of the [PlaygroundSection] variant.

    Modelling conventions.
    - React state and refs of the component are the fields of one record
      [App]; a [setX(updater)] call is the updater applied to the current
      field, in call order.
    - [localStorage] is a finite map from keys to stored texts.  A stored
      text is kept as the value it is the JSON rendering of ([Serialized]),
      or as the empty text, or as a text [JSON.parse] rejects.
    - [crypto.randomUUID()], [new Date()] and the success of
      [localStorage.setItem] are answers of the environment: the record
      [World] holds one answer per draw and [draws] counts the draws made.
    - [await] is a suspension: a handler runs up to its next awaited call
      and hands back the continuation that is resumed with the settlement.
    - [setTimeout] appends a timer to [timers]; [advance] lets time pass and
      runs the callbacks that are due. *)

From stdpp Require Import base strings pretty list sorting gmap.
From Stdlib Require Import ZArith Lia.

Local Open Scope string_scope.
Local Open Scope nat_scope.
Local Open Scope list_scope.

(** ** Data model *)

(** [LogEntry['type']] *)
Inductive LogType := info | success | error | pending.

#[global] Instance LogType_eq_dec : EqDecision LogType.
Proof. solve_decision. Defined.

(** [interface LogEntry]; [timestamp] is the [Date] as milliseconds. *)
Record LogEntry := mkLogEntry {
  id : string;
  timestamp : Z;
  type : LogType;
  message : string;
  details : option string
}.

Inductive TxType := transfer | subscription | airdrop.
Inductive TxStatus := tx_success | tx_failed.

(** [Omit<StoredTransaction, 'timestamp'>], the argument of [addTransaction]. *)
Record TxInput := mkTxInput {
  in_signature : string;
  in_type : TxType;
  in_status : TxStatus;
  in_details : option string
}.

(** [interface StoredTransaction]; [tx_timestamp] is the instant whose
    [toISOString()] rendering the source stores. *)
Record StoredTransaction := mkStoredTransaction {
  signature : string;
  tx_type : TxType;
  tx_timestamp : Z;
  status : TxStatus;
  tx_details : option string
}.

(** The values the page serialises into localStorage. *)
Inductive JsVal :=
  | VLogs (l : list LogEntry)
  | VTxs (l : list StoredTransaction)
  | VStr (s : string).

(** A text held under a key: [JSON.stringify v] for some [v], the empty
    text, or a non-empty text that [JSON.parse] throws on. *)
Inductive Stored :=
  | Serialized (v : JsVal)
  | EmptyText
  | Malformed.

(** Answers of the environment, one per draw. *)
Record World := mkWorld {
  randomUUID_at : nat -> string;
  Date_at : nat -> Z;
  setItem_throws_at : nat -> bool
}.

(** The four guarded actions of [WalletDemo] (the refs [isSigningRef],
    [isSendingRef], [isSubscribingRef], [isAirdropRef]). *)
Inductive Guard := GSign | GSend | GSubscribe | GAirdrop.

#[global] Instance Guard_eq_dec : EqDecision Guard.
Proof. solve_decision. Defined.

(** A pending [setTimeout]: the instant it is due and the guard its callback
    unlocks. *)
Record Timer := mkTimer { due : nat; unlocks : Guard }.

(** The [useState] busy indicators mirrored from the refs. *)
Record Flags := mkFlags {
  isSigning : bool;
  isSending : bool;
  isAirdropping : bool;
  isSubscribing : bool
}.

(** The [useRef] locks. *)
Record Refs := mkRefs {
  isSigningRef : bool;
  isSendingRef : bool;
  isSubscribingRef : bool;
  isAirdropRef : bool
}.

(** The browser side: [typeof window !== 'undefined'], the content of
    [localStorage], the trace of every successful [setItem] (newest first),
    the pending timers and the time elapsed in milliseconds. *)
Record Browser := mkBrowser {
  has_window : bool;
  localStorage : gmap string Stored;
  written : list (string * JsVal);
  timers : list Timer;
  elapsed : nat
}.

Record App := mkApp {
  balance : Z;
  logs : list LogEntry;
  transactions : list StoredTransaction;
  lastSignature : option string;
  selectedPlan : option string;
  busy : Flags;
  refs : Refs;
  browser : Browser;
  world : World;
  draws : nat
}.

(** Field updates. *)
Definition setBalance (v : Z) (st : App) : App :=
  {| balance := v; logs := logs st; transactions := transactions st;
     lastSignature := lastSignature st; selectedPlan := selectedPlan st;
     busy := busy st; refs := refs st; browser := browser st;
     world := world st; draws := draws st |}.

Definition setLogsTo (v : list LogEntry) (st : App) : App :=
  {| balance := balance st; logs := v; transactions := transactions st;
     lastSignature := lastSignature st; selectedPlan := selectedPlan st;
     busy := busy st; refs := refs st; browser := browser st;
     world := world st; draws := draws st |}.

Definition setTransactionsTo (v : list StoredTransaction) (st : App) : App :=
  {| balance := balance st; logs := logs st; transactions := v;
     lastSignature := lastSignature st; selectedPlan := selectedPlan st;
     busy := busy st; refs := refs st; browser := browser st;
     world := world st; draws := draws st |}.

Definition setLastSignature (v : option string) (st : App) : App :=
  {| balance := balance st; logs := logs st; transactions := transactions st;
     lastSignature := v; selectedPlan := selectedPlan st;
     busy := busy st; refs := refs st; browser := browser st;
     world := world st; draws := draws st |}.

Definition setSelectedPlan (v : option string) (st : App) : App :=
  {| balance := balance st; logs := logs st; transactions := transactions st;
     lastSignature := lastSignature st; selectedPlan := v;
     busy := busy st; refs := refs st; browser := browser st;
     world := world st; draws := draws st |}.

Definition with_busy (v : Flags) (st : App) : App :=
  {| balance := balance st; logs := logs st; transactions := transactions st;
     lastSignature := lastSignature st; selectedPlan := selectedPlan st;
     busy := v; refs := refs st; browser := browser st;
     world := world st; draws := draws st |}.

Definition with_refs (v : Refs) (st : App) : App :=
  {| balance := balance st; logs := logs st; transactions := transactions st;
     lastSignature := lastSignature st; selectedPlan := selectedPlan st;
     busy := busy st; refs := v; browser := browser st;
     world := world st; draws := draws st |}.

Definition with_browser (v : Browser) (st : App) : App :=
  {| balance := balance st; logs := logs st; transactions := transactions st;
     lastSignature := lastSignature st; selectedPlan := selectedPlan st;
     busy := busy st; refs := refs st; browser := v;
     world := world st; draws := draws st |}.

(** One more answer of the environment has been consumed. *)
Definition drawn (st : App) : App :=
  {| balance := balance st; logs := logs st; transactions := transactions st;
     lastSignature := lastSignature st; selectedPlan := selectedPlan st;
     busy := busy st; refs := refs st; browser := browser st;
     world := world st; draws := S (draws st) |}.

(** ** Environment primitives *)

(** [crypto.randomUUID()] *)
Definition randomUUID (st : App) : string * App :=
  (randomUUID_at (world st) (draws st), drawn st).

(** [new Date()] *)
Definition newDate (st : App) : Z * App :=
  (Date_at (world st) (draws st), drawn st).

(** [localStorage.getItem(key)]: [None] is JavaScript's [null]. *)
Definition getItem (key : string) (st : App) : option Stored :=
  localStorage (browser st) !! key.

(** [localStorage.setItem(key, JSON.stringify(value))]: [None] when the
    write throws (quota exceeded), otherwise the store holds the new text
    and the write is recorded in the trace. *)
Definition setItem (key : string) (value : JsVal) (st : App) : option App :=
  let st' := drawn st in
  if setItem_throws_at (world st) (draws st) then None
  else
    let b := browser st' in
    Some (with_browser
            {| has_window := has_window b;
               localStorage := <[key := Serialized value]> (localStorage b);
               written := (key, value) :: written b;
               timers := timers b;
               elapsed := elapsed b |} st').

(** [localStorage.removeItem(key)] *)
Definition removeItem (key : string) (st : App) : App :=
  let b := browser st in
  with_browser
    {| has_window := has_window b;
       localStorage := delete key (localStorage b);
       written := written b;
       timers := timers b;
       elapsed := elapsed b |} st.

(** ** Persistent store adapter *)

Module STORAGE_KEYS.
Definition LOGS : string := "lazorkit_logs".
Definition TRANSACTIONS : string := "lazorkit_transactions".
Definition LAST_WALLET : string := "lazorkit_last_wallet".
End STORAGE_KEYS.

(** [loadFromStorage<T>(key, defaultValue)]: total, so it never raises.
    [stored ? JSON.parse(stored) : defaultValue] takes the default for
    [null] and for the empty text; the [catch] takes it when [JSON.parse]
    throws. *)
Definition loadFromStorage (key : string) (defaultValue : JsVal) (st : App) : JsVal :=
  if negb (has_window (browser st)) then defaultValue
  else
    match getItem key st with
    | None => defaultValue
    | Some EmptyText => defaultValue
    | Some (Serialized v) => v
    | Some Malformed => defaultValue
    end.

(** [saveToStorage<T>(key, value)]: the [catch] only reports to the
    console; the environment's answer is consumed either way. *)
Definition saveToStorage (key : string) (value : JsVal) (st : App) : App :=
  if negb (has_window (browser st)) then st
  else
    match setItem key value st with
    | Some st' => st'
    | None => drawn st
    end.

(** ** Log ledger *)

(** [log.type !== 'pending'] *)
Definition notPending (log : LogEntry) : Prop := type log ≠ pending.

#[global] Instance notPending_dec log : Decision (notPending log).
Proof. unfold notPending; apply _. Defined.

(** [clearPendingLogs]: the updater of [setLogs] returns [prev] untouched,
    and writes nothing, when no pending entry is present. *)
Definition clearPendingLogs (st : App) : App :=
  let prev := logs st in
  let pendingCount := length (filter (λ log, type log = pending) prev) in
  if Nat.eqb pendingCount 0 then st
  else
    let filtered := filter notPending prev in
    let st := saveToStorage STORAGE_KEYS.LOGS (VLogs filtered) st in
    setLogsTo filtered st.

(** The entry [addLog] builds before it calls [setLogs]. *)
Definition newLogEntry (ty : LogType) (message : string)
    (details : option string) (st : App) : LogEntry * App :=
  let '(logId, st) := randomUUID st in
  let '(now, st) := newDate st in
  (mkLogEntry logId now ty message details, st).

(** The updater [addLog] passes to [setLogs], with its write to storage. *)
Definition addLog_updater (ty : LogType) (logEntry : LogEntry) (st : App) : App :=
  let prev := logs st in
  let shouldFilter :=
    bool_decide (ty = success) || bool_decide (ty = error)
    || bool_decide (ty = info) in
  let baseLogs :=
    if shouldFilter then
      let pendingCount := length (filter (λ log, type log = pending) prev) in
      if Nat.ltb 0 pendingCount then filter notPending prev else prev
    else prev in
  let newLogs := take 30 (logEntry :: baseLogs) in
  let logsToSave := filter notPending newLogs in
  let st := saveToStorage STORAGE_KEYS.LOGS (VLogs logsToSave) st in
  setLogsTo newLogs st.

Definition addLog (ty : LogType) (message : string)
    (details : option string) (st : App) : App :=
  let '(logEntry, st) := newLogEntry ty message details st in
  addLog_updater ty logEntry st.

(** The Activity Log's Clear button: [onClick={() => setLogs([])}]. *)
Definition clearLogs (st : App) : App := setLogsTo [] st.

(** ** Transaction history ledger *)

Definition addTransaction (tx : TxInput) (st : App) : App :=
  let prev := transactions st in
  let '(now, st) := newDate st in
  let newTx :=
    take 50 (mkStoredTransaction (in_signature tx) (in_type tx) now
               (in_status tx) (in_details tx) :: prev) in
  let st := saveToStorage STORAGE_KEYS.TRANSACTIONS (VTxs newTx) st in
  setTransactionsTo newTx st.

(** The Clear History button:
    [setTransactions([]); localStorage.removeItem(STORAGE_KEYS.TRANSACTIONS)]. *)
Definition clearHistory (st : App) : App :=
  removeItem STORAGE_KEYS.TRANSACTIONS (setTransactionsTo [] st).

(** ** The last wallet *)

(** The effect that persists the wallet address:
    [saveToStorage(STORAGE_KEYS.LAST_WALLET, smartWalletAddress)]. *)
Definition persistWallet (smartWalletAddress : string) (st : App) : App :=
  saveToStorage STORAGE_KEYS.LAST_WALLET (VStr smartWalletAddress) st.

(** ** The log helper of the PlaygroundSection variant *)

Module Playground.
(** [setLogs((prev) => [entry, ...prev].slice(0, 20))]; this variant has
    no storage. *)
Definition addLog (ty : LogType) (message : string)
    (details : option string) (st : App) : App :=
  let '(entry, st) := newLogEntry ty message details st in
  setLogsTo (take 20 (entry :: logs st)) st.

Definition clearLogs (st : App) : App :=
  setLastSignature None (setLogsTo [] st).
End Playground.

(** ** Timers *)

(** The callback the four guarded handlers pass to [setTimeout]: it clears
    the ref and the busy indicator; the subscribe one also clears the
    selected plan. *)
Definition unlock (g : Guard) (st : App) : App :=
  let r := refs st in
  let f := busy st in
  match g with
  | GSign =>
      with_busy (mkFlags false (isSending f) (isAirdropping f) (isSubscribing f))
        (with_refs (mkRefs false (isSendingRef r) (isSubscribingRef r) (isAirdropRef r)) st)
  | GSend =>
      with_busy (mkFlags (isSigning f) false (isAirdropping f) (isSubscribing f))
        (with_refs (mkRefs (isSigningRef r) false (isSubscribingRef r) (isAirdropRef r)) st)
  | GSubscribe =>
      setSelectedPlan None
        (with_busy (mkFlags (isSigning f) (isSending f) (isAirdropping f) false)
           (with_refs (mkRefs (isSigningRef r) (isSendingRef r) false (isAirdropRef r)) st))
  | GAirdrop =>
      with_busy (mkFlags (isSigning f) (isSending f) false (isSubscribing f))
        (with_refs (mkRefs (isSigningRef r) (isSendingRef r) (isSubscribingRef r) false) st)
  end.

(** The lock a handler takes right after its guard test:
    [isXRef.current = true; setIsX(true)]. *)
Definition lock (g : Guard) (st : App) : App :=
  let r := refs st in
  let f := busy st in
  match g with
  | GSign =>
      with_busy (mkFlags true (isSending f) (isAirdropping f) (isSubscribing f))
        (with_refs (mkRefs true (isSendingRef r) (isSubscribingRef r) (isAirdropRef r)) st)
  | GSend =>
      with_busy (mkFlags (isSigning f) true (isAirdropping f) (isSubscribing f))
        (with_refs (mkRefs (isSigningRef r) true (isSubscribingRef r) (isAirdropRef r)) st)
  | GSubscribe =>
      with_busy (mkFlags (isSigning f) (isSending f) (isAirdropping f) true)
        (with_refs (mkRefs (isSigningRef r) (isSendingRef r) true (isAirdropRef r)) st)
  | GAirdrop =>
      with_busy (mkFlags (isSigning f) (isSending f) true (isSubscribing f))
        (with_refs (mkRefs (isSigningRef r) (isSendingRef r) (isSubscribingRef r) true) st)
  end.

(** [isXRef.current] *)
Definition locked (g : Guard) (st : App) : bool :=
  match g with
  | GSign => isSigningRef (refs st)
  | GSend => isSendingRef (refs st)
  | GSubscribe => isSubscribingRef (refs st)
  | GAirdrop => isAirdropRef (refs st)
  end.

(** [setTimeout(() => { ... }, delay)] *)
Definition setTimeout (g : Guard) (delay : nat) (st : App) : App :=
  let b := browser st in
  with_browser
    {| has_window := has_window b;
       localStorage := localStorage b;
       written := written b;
       timers := timers b ++ [mkTimer (elapsed b + delay)%nat g];
       elapsed := elapsed b |} st.

(** [dt] milliseconds pass: every timer that has come due runs, in the
    order the timers were set, and leaves the queue. *)
Definition advance (dt : nat) (st : App) : App :=
  let b := browser st in
  let now := (elapsed b + dt)%nat in
  let fired := filter (λ t, (due t ≤ now)%nat) (timers b) in
  let waiting := filter (λ t, ¬ (due t ≤ now)%nat) (timers b) in
  foldl (λ s t, unlock (unlocks t) s)
    (with_browser
       {| has_window := has_window b;
          localStorage := localStorage b;
          written := written b;
          timers := waiting;
          elapsed := now |} st)
    fired.

(** ** The wallet SDK and the RPC client *)

Record WalletInfo := mkWalletInfo { smartWallet : string }.
Record SignResult := mkSignResult { sig_signature : string }.

(** What a render of [WalletDemo] reads from [useWallet()]. *)
Record Sdk := mkSdk {
  wallet : option WalletInfo;
  isConnecting : bool;
  has_signMessage : bool;
  has_signAndSendTransaction : bool
}.

(** A string is truthy when it is not empty. *)
Definition truthy (s : string) : bool := negb (String.eqb s "").

(** [wallet?.smartWallet || null] *)
Definition smartWalletAddress (sdk : Sdk) : option string :=
  match wallet sdk with
  | Some w => if truthy (smartWallet w) then Some (smartWallet w) else None
  | None => None
  end.

(** [!!wallet?.smartWallet] *)
Definition isConnected (sdk : Sdk) : bool :=
  match smartWalletAddress sdk with Some _ => true | None => false end.

(** [smartWalletAddress ? new PublicKey(smartWalletAddress) : null]; a key
    is represented by its address. *)
Definition smartWalletPubkey (sdk : Sdk) : option string := smartWalletAddress sdk.

Record Instruction := mkInstruction {
  fromPubkey : string;
  toPubkey : string;
  lamports : Z
}.

Record TransactionOptions := mkTransactionOptions {
  computeUnitLimit : option Z;
  clusterSimulation : string
}.

(** A value a rejected promise carries: an [Error] object with its message,
    a thrown string (its [.message] is [undefined]), or [undefined] (reading
    a property of it throws a [TypeError]). *)
Inductive Thrown :=
  | ErrorObj (msg : string)
  | ThrownString (s : string)
  | ThrownUndefined.

Definition TypeError : Thrown := ErrorObj "TypeError".

(** [(err as Error).message]: [None] when the property read itself throws. *)
Definition err_message (err : Thrown) : option (option string) :=
  match err with
  | ErrorObj m => Some (Some m)
  | ThrownString _ => Some None
  | ThrownUndefined => None
  end.

(** The awaited calls, indexed by the type of the value they resolve to. *)
Inductive Ext : Type -> Type :=
  | connect : Ext (option WalletInfo)
  | disconnect : Ext unit
  | signMessage (text : string) : Ext (option SignResult)
  | signAndSendTransaction (instructions : list Instruction)
      (transactionOptions : TransactionOptions) : Ext string
  | requestAirdrop (to : string) (amount : Z) : Ext string
  | confirmTransaction (sig : string) (commitment : string) : Ext unit
  | getBalance (address : string) : Ext Z.

Inductive Settled (X : Type) :=
  | Fulfilled (value : X)
  | Rejected (reason : Thrown).
Arguments Fulfilled {X} value.
Arguments Rejected {X} reason.

(** How an [async] handler ends: it returns, or its promise rejects with a
    value nobody handles. *)
Inductive Completion :=
  | Returned
  | Threw (reason : Thrown).

(** A handler after a synchronous stretch: finished, or suspended at an
    [await] with the code that runs once the call settles. *)
#[local] Unset Elimination Schemes.
Inductive Task : Type :=
  | Finished (c : Completion)
  | Suspended {X : Type} (call : Ext X) (k : Settled X -> App -> App * Task).
#[local] Set Elimination Schemes.

(** The environment's settlement of every awaited call. *)
Definition Oracle := ∀ X, Ext X -> Settled X.

(** Runs a task to its end, every awaited call settling as [oracle] says. *)
Fixpoint complete (oracle : Oracle) (t : Task) (st : App) : App * Completion :=
  match t with
  | Finished c => (st, c)
  | Suspended call k =>
      let '(st', t') := k (oracle _ call) st in
      complete oracle t' st'
  end.

(** ** JavaScript string helpers *)

(** [s.slice(0, n)] *)
Definition slice_to (n : nat) (s : string) : string := String.substring 0 n s.

(** [s.slice(-n)] *)
Definition slice_last (n : nat) (s : string) : string :=
  String.substring (String.length s - n) n s.

(** [s.includes(needle)] *)
Definition includes (needle s : string) : bool :=
  match String.index 0 needle s with Some _ => true | None => false end.

(** ** Constants of the page *)

Definition LAMPORTS_PER_SOL : Z := 1000000000.

(** An entry of [PLANS].  [price_lamports] is
    [Math.floor(plan.price * LAMPORTS_PER_SOL)] for the prices 0.001, 0.005
    and 0.01 of the table. *)
Record Plan := mkPlan {
  plan_id : string;
  name : string;
  price_lamports : Z;
  priceDisplay : string
}.

Definition PLANS : list Plan :=
  [ mkPlan "starter" "Starter" 1000000 "$0.001";
    mkPlan "pro" "Pro" 5000000 "$0.005";
    mkPlan "enterprise" "Enterprise" 10000000 "$0.01" ].

(** [PLANS.find(p => p.id === planId)] *)
Definition find_plan (planId : string) : option Plan :=
  List.find (λ p, String.eqb (plan_id p) planId) PLANS.

(** ** Handlers of [WalletDemo] *)

(** The [finally] block shared by the four guarded handlers. *)
Definition finally_release (g : Guard) (c : Completion) (st : App) : App * Task :=
  let st := clearPendingLogs st in
  let st := setTimeout g 500 st in
  (st, Finished c).

Definition handleConnect (sdk : Sdk) (st : App) : App * Task :=
  (* Clear old logs to start fresh *)
  let st := setLogsTo [] st in
  let st := addLog pending "Opening passkey authentication..." None st in
  (st, Suspended connect (λ settled st,
    match settled with
    | Fulfilled result =>
        let st := addLog success "Connected successfully!" None st in
        let st :=
          match result with
          | Some r =>
              if truthy (smartWallet r) then
                addLog info
                  ("Wallet: " +:+ slice_to 8 (smartWallet r) +:+ "..."
                   +:+ slice_last 4 (smartWallet r)) None st
              else st
          | None => st
          end in
        (clearPendingLogs st, Finished Returned)
    | Rejected err =>
        (* the catch block reads [(err as Error).name] first *)
        match err_message err with
        | None => (clearPendingLogs st, Finished (Threw TypeError))
        | Some m =>
            let st := addLog error "Connection failed" m st in
            (clearPendingLogs st, Finished Returned)
        end
    end)).

Definition handleDisconnect (sdk : Sdk) (st : App) : App * Task :=
  (st, Suspended disconnect (λ settled st,
    match settled with
    | Fulfilled _ =>
        let st := addLog info "Disconnected" None st in
        let st := setLastSignature None st in
        let st := setBalance 0 st in
        (st, Finished Returned)
    | Rejected err => (st, Finished (Threw err))
    end)).

(** The [catch] block of [handleAirdrop]: [errorMsg.includes] throws when
    the message is [undefined]. *)
Definition airdrop_catch (err : Thrown) (st : App) : App * Task :=
  match err_message err with
  | None | Some None => finally_release GAirdrop (Threw TypeError) st
  | Some (Some errorMsg) =>
      let st :=
        if includes "429" errorMsg || includes "limit" errorMsg then
          addLog error "Rate limited! Use faucet.solana.com instead" None st
        else addLog error "Airdrop failed" (Some errorMsg) st in
      let st := addTransaction (mkTxInput "" airdrop tx_failed (Some errorMsg)) st in
      finally_release GAirdrop Returned st
  end.

Definition handleAirdrop (sdk : Sdk) (st : App) : App * Task :=
  match smartWalletPubkey sdk with
  | None => (st, Finished Returned)
  | Some pubkey =>
    if isAirdropRef (refs st) then (st, Finished Returned)
    else
      let st := lock GAirdrop st in
      let st := addLog pending "Requesting 1 SOL airdrop from devnet..." None st in
      (st, Suspended (requestAirdrop pubkey LAMPORTS_PER_SOL) (λ settled st,
        match settled with
        | Rejected err => airdrop_catch err st
        | Fulfilled sig =>
          let st := addLog info ("Airdrop TX: " +:+ slice_to 12 sig +:+ "...") None st in
          (st, Suspended (confirmTransaction sig "confirmed") (λ settled st,
            match settled with
            | Rejected err => airdrop_catch err st
            | Fulfilled _ =>
              let st := addLog success "+1 SOL airdropped!" None st in
              let st := addTransaction
                          (mkTxInput sig airdrop tx_success
                             (Some "1 SOL from devnet faucet")) st in
              (st, Suspended (getBalance pubkey) (λ settled st,
                match settled with
                | Rejected err => airdrop_catch err st
                | Fulfilled newBal =>
                    let st := setBalance newBal st in
                    let st := setLastSignature (Some sig) st in
                    finally_release GAirdrop Returned st
                end))
            end))
        end))
  end.

Definition handleSignMessage (sdk : Sdk) (st : App) : App * Task :=
  if negb (isConnected sdk) || negb (has_signMessage sdk) || isSigningRef (refs st)
  then (st, Finished Returned)
  else
    let st := lock GSign st in
    let st := addLog pending "Requesting signature..." None st in
    (st, Suspended (signMessage "Hello from LazorKit Playground!") (λ settled st,
      match settled with
      | Fulfilled result =>
          let st := addLog success "Message signed!" None st in
          let st :=
            match result with
            | Some r =>
                if truthy (sig_signature r) then
                  addLog info ("Sig: " +:+ slice_to 16 (sig_signature r) +:+ "...") None st
                else st
            | None => st
            end in
          finally_release GSign Returned st
      | Rejected err =>
          match err_message err with
          | None => finally_release GSign (Threw TypeError) st
          | Some m =>
              let st := addLog error "Signing failed" m st in
              finally_release GSign Returned st
          end
      end)).

(** The [catch] block of [handleSendTransaction]. *)
Definition send_catch (err : Thrown) (st : App) : App * Task :=
  match err_message err with
  | None => finally_release GSend (Threw TypeError) st
  | Some m =>
      let st := addLog error "Transaction failed" m st in
      let st := addTransaction (mkTxInput "" transfer tx_failed m) st in
      finally_release GSend Returned st
  end.

Definition handleSendTransaction (sdk : Sdk) (st : App) : App * Task :=
  match smartWalletPubkey sdk with
  | None => (st, Finished Returned)
  | Some pubkey =>
    if negb (has_signAndSendTransaction sdk) || isSendingRef (refs st)
    then (st, Finished Returned)
    else
      let st := lock GSend st in
      let st := addLog pending "Sending gasless transaction..." None st in
      let instruction := mkInstruction pubkey pubkey 100 in
      (st, Suspended
             (signAndSendTransaction [instruction]
                (mkTransactionOptions None "devnet")) (λ settled st,
        match settled with
        | Rejected err => send_catch err st
        | Fulfilled sig =>
          let st := setLastSignature (Some sig) st in
          let st := addLog success "Transaction confirmed!" None st in
          let st := addLog info ("TX: " +:+ slice_to 12 sig +:+ "...") (Some sig) st in
          let st := addTransaction
                      (mkTxInput sig transfer tx_success
                         (Some "Self-transfer 100 lamports")) st in
          (st, Suspended (getBalance pubkey) (λ settled st,
            match settled with
            | Rejected err => send_catch err st
            | Fulfilled newBal =>
                finally_release GSend Returned (setBalance newBal st)
            end))
        end))
  end.

(** The [catch] block of [handleSubscribe]. *)
Definition subscribe_catch (err : Thrown) (st : App) : App * Task :=
  match err_message err with
  | None => finally_release GSubscribe (Threw TypeError) st
  | Some m =>
      let st := addLog error "Subscription failed" m st in
      let st := addTransaction (mkTxInput "" subscription tx_failed m) st in
      finally_release GSubscribe Returned st
  end.

Definition handleSubscribe (planId : string) (sdk : Sdk) (st : App) : App * Task :=
  match smartWalletPubkey sdk with
  | None => (st, Finished Returned)
  | Some pubkey =>
    if negb (has_signAndSendTransaction sdk) || isSubscribingRef (refs st)
    then (st, Finished Returned)
    else
      match find_plan planId with
      | None => (st, Finished Returned)
      | Some plan =>
        let st := lock GSubscribe st in
        let st := setSelectedPlan (Some planId) st in
        let st := addLog pending ("Subscribing to " +:+ name plan +:+ "...") None st in
        let instruction := mkInstruction pubkey pubkey (price_lamports plan) in
        (st, Suspended
               (signAndSendTransaction [instruction]
                  (mkTransactionOptions (Some 200000%Z) "devnet")) (λ settled st,
          match settled with
          | Rejected err => subscribe_catch err st
          | Fulfilled sig =>
            let st := setLastSignature (Some sig) st in
            let st := addLog success ("Subscribed to " +:+ name plan +:+ "!") None st in
            let st := addTransaction
                        (mkTxInput sig subscription tx_success
                           (Some (name plan +:+ " - " +:+ priceDisplay plan))) st in
            (st, Suspended (getBalance pubkey) (λ settled st,
              match settled with
              | Rejected err => subscribe_catch err st
              | Fulfilled newBal =>
                  finally_release GSubscribe Returned (setBalance newBal st)
              end))
          end))
      end
  end.

(** ** Runs of ledger operations *)

Record LogCall := mkLogCall {
  call_type : LogType;
  call_message : string;
  call_details : option string
}.

Definition addLog_call (st : App) (c : LogCall) : App :=
  addLog (call_type c) (call_message c) (call_details c) st.

(** A sequence of [addLog] calls, first call first. *)
Definition addLogs (calls : list LogCall) (st : App) : App :=
  foldl addLog_call st calls.

Definition Playground_addLog_call (st : App) (c : LogCall) : App :=
  Playground.addLog (call_type c) (call_message c) (call_details c) st.

(** The same sequence through the PlaygroundSection variant. *)
Definition Playground_addLogs (calls : list LogCall) (st : App) : App :=
  foldl Playground_addLog_call st calls.

(** A sequence of [addTransaction] calls, first call first. *)
Definition addTransactions (txs : list TxInput) (st : App) : App :=
  foldl (λ st tx, addTransaction tx st) st txs.

(** The operations that touch the two ledgers. *)
Inductive LedgerOp :=
  | OpAddLog (c : LogCall)
  | OpClearPending
  | OpClearLogs
  | OpAddTransaction (tx : TxInput)
  | OpClearHistory
  | OpPersistWallet (smartWalletAddress : string).

Definition apply_op (st : App) (op : LedgerOp) : App :=
  match op with
  | OpAddLog c => addLog_call st c
  | OpClearPending => clearPendingLogs st
  | OpClearLogs => clearLogs st
  | OpAddTransaction tx => addTransaction tx st
  | OpClearHistory => clearHistory st
  | OpPersistWallet address => persistWallet address st
  end.

Definition apply_ops (ops : list LedgerOp) (st : App) : App :=
  foldl apply_op st ops.

(** The sequence [addLog] prepends to: [prev] with its pending entries
    removed when the new entry settles, [prev] itself otherwise. *)
Definition baseLogs (ty : LogType) (prev : list LogEntry) : list LogEntry :=
  if decide (ty = pending) then prev else filter notPending prev.

(** A write is clean when, if it is under the log key, it holds a list of
    log entries none of which is pending. *)
Definition clean_write (kv : string * JsVal) : Prop :=
  kv.1 = STORAGE_KEYS.LOGS ->
  ∃ l, kv.2 = VLogs l ∧ Forall notPending l.

(** The entry a call creates in state [st]. *)
Definition entry_of (c : LogCall) (st : App) : LogEntry :=
  (newLogEntry (call_type c) (call_message c) (call_details c) st).1.

(** The entries the calls create, newest first, from state [st] on, when
    [step] is the append in use. *)
Fixpoint created (step : App -> LogCall -> App) (calls : list LogCall)
    (st : App) : list LogEntry :=
  match calls with
  | [] => []
  | c :: calls => created step calls (step st c) ++ [entry_of c st]
  end.

(** The record [addTransaction] builds for [tx] in state [st]. *)
Definition record_of (tx : TxInput) (st : App) : StoredTransaction :=
  mkStoredTransaction (in_signature tx) (in_type tx) (newDate st).1
    (in_status tx) (in_details tx).

(** The records the calls create, newest first, from state [st] on. *)
Fixpoint recorded (txs : list TxInput) (st : App) : list StoredTransaction :=
  match txs with
  | [] => []
  | tx :: txs =>
      recorded txs (addTransaction tx st) ++ [record_of tx st]
  end.

(** From [st] to [st'] only clean writes happened, and the text under the
    log key is either untouched or a pending-free list of entries. *)
Definition persists_cleanly (st st' : App) : Prop :=
  ∃ fresh,
    written (browser st') = fresh ++ written (browser st)
    ∧ Forall clean_write fresh
    ∧ (localStorage (browser st') !! STORAGE_KEYS.LOGS
       = localStorage (browser st) !! STORAGE_KEYS.LOGS
       ∨ ∃ l, localStorage (browser st') !! STORAGE_KEYS.LOGS
              = Some (Serialized (VLogs l)) ∧ Forall notPending l).

(** ** Order by time stamp *)

(** Every entry is at least as recent as the entries after it. *)
Definition newest_first (l : list LogEntry) : Prop :=
  StronglySorted (λ a b, (timestamp b ≤ timestamp a)%Z) l.

(** The clock of the environment never runs backwards. *)
Definition monotone_clock (w : World) : Prop :=
  ∀ i j, i ≤ j -> (Date_at w i ≤ Date_at w j)%Z.

(** The log is ordered by time stamp and holds nothing from the future. *)
Definition chronological (st : App) : Prop :=
  newest_first (logs st)
  ∧ Forall (λ e, (timestamp e ≤ Date_at (world st) (draws st))%Z) (logs st).

(** ** The guards as the handlers use them *)

(** The handler behind each guard; [planId] is the argument of
    [handleSubscribe]. *)
Definition guarded_handler (g : Guard) (planId : string)
    (sdk : Sdk) (st : App) : App * Task :=
  match g with
  | GSign => handleSignMessage sdk st
  | GSend => handleSendTransaction sdk st
  | GSubscribe => handleSubscribe planId sdk st
  | GAirdrop => handleAirdrop sdk st
  end.

(** The tests a handler makes besides its own ref: wallet connected, SDK
    function present, plan known. *)
Definition ready (g : Guard) (planId : string) (sdk : Sdk) : bool :=
  match g with
  | GSign => isConnected sdk && has_signMessage sdk
  | GSend => isConnected sdk && has_signAndSendTransaction sdk
  | GSubscribe =>
      isConnected sdk && has_signAndSendTransaction sdk
      && bool_decide (is_Some (find_plan planId))
  | GAirdrop => isConnected sdk
  end.

(** The attempt got past the guard: the handler is suspended at its first
    awaited call. *)
Definition acquired (r : App * Task) : bool :=
  match r.2 with
  | Suspended _ _ => true
  | Finished _ => false
  end.

(** What the guards depend on: the refs, the pending timers, the time. *)
Definition guards_of (st : App) : Refs * list Timer * nat :=
  (refs st, timers (browser st), elapsed (browser st)).

(** The same view once the [finally] block of the handler of [g] has set
    its timer. *)
Definition released (g : Guard) (v : Refs * list Timer * nat) :
    Refs * list Timer * nat :=
  (v.1.1, v.1.2 ++ [mkTimer (v.2 + 500) g], v.2).

(** Some timer in [ts] unlocks [g] and is due at [now]. *)
Definition releases (g : Guard) (now : nat) (ts : list Timer) : bool :=
  existsb (λ t, bool_decide (unlocks t = g) && bool_decide (due t ≤ now)) ts.

(** ** The five actions as the page triggers them *)


(** A click on a button: a disabled button dispatches nothing. *)
Definition click (disabled : bool) (handler : App -> App * Task)
    (st : App) : App * Task :=
  if disabled then (st, Finished Returned) else handler st.

(** The only caller of [handleConnect]: the hero button, rendered while
    [!isConnected], [<button onClick={handleConnect} disabled={isConnecting}>]. *)
Definition click_connect (sdk : Sdk) (st : App) : App * Task :=
  if isConnected sdk then (st, Finished Returned)
  else click (isConnecting sdk) (handleConnect sdk) st.



(** ** Concrete states used to exercise the statements *)

(** An environment whose ids are the draw numbers, whose clock shows the
    draw number, and whose storage never rejects a write. *)
Definition calm_world : World :=
  mkWorld (λ n, pretty n) (λ n, Z.of_nat n) (λ _, false).

(** The same environment, except that storage rejects every write from
    draw [k] on (quota exceeded). *)
Definition quota_after (k : nat) : World :=
  mkWorld (λ n, pretty n) (λ n, Z.of_nat n) (λ n, bool_decide (k ≤ n)).

(** [WalletDemo] on a first visit: every [useState] and [useRef] at its
    initial value, nothing in localStorage, no timer set. *)
Definition first_visit (w : World) : App :=
  mkApp 0 [] [] None None
    (mkFlags false false false false) (mkRefs false false false false)
    (mkBrowser true ∅ [] [] 0) w 0.

(** A connected wallet with every SDK function available. *)
Definition connected_sdk : Sdk :=
  mkSdk (Some (mkWalletInfo "7xKXtg2CW87d97TXJSDpbD5jBkheTqA83TZRuJosgAsU"))
    false true true.

(** Every awaited call is rejected with [err]. *)
Definition rejecting (err : Thrown) : Oracle := λ X _, Rejected err.

(** Every awaited call is fulfilled. *)
Definition fulfilling : Oracle :=
  λ X call,
    match call in Ext X return Settled X with
    | connect =>
        Fulfilled (Some (mkWalletInfo "7xKXtg2CW87d97TXJSDpbD5jBkheTqA83TZRuJosgAsU"))
    | disconnect => Fulfilled tt
    | signMessage _ => Fulfilled (Some (mkSignResult "3yZe7dabc123"))
    | signAndSendTransaction _ _ => Fulfilled "5xYzTransferSignature"
    | requestAirdrop _ _ => Fulfilled "4vAirdropSignature"
    | confirmTransaction _ _ => Fulfilled tt
    | getBalance _ => Fulfilled 1000000000%Z
    end.

(** Every rejection the environment produces carries an [Error] object. *)
Definition rejects_with_errors (oracle : Oracle) : Prop :=
  ∀ X (call : Ext X) err, oracle X call = Rejected err -> ∃ m, err = ErrorObj m.

(** The SDK while a connect is in flight: no wallet yet, [isConnecting]. *)
Definition connecting_sdk : Sdk := mkSdk None true true true.

(** ** Page load *)

(** The [useState] initialisers of [WalletDemo], run against the browser
    [b]: the log is the stored list without its pending entries, the history
    is the stored list as it is, everything else starts at its default.
    [None] when the text under a key does not hold a list of the shape the
    key is read at; the component then throws during render or holds
    entries of another shape, which [App] does not represent. *)
Definition mount (w : World) (n : nat) (b : Browser) : option App :=
  let blank :=
    mkApp 0 [] [] None None
      (mkFlags false false false false) (mkRefs false false false false)
      b w n in
  match loadFromStorage STORAGE_KEYS.LOGS (VLogs []) blank,
        loadFromStorage STORAGE_KEYS.TRANSACTIONS (VTxs []) blank with
  | VLogs loaded, VTxs stored =>
      Some (setTransactionsTo stored (setLogsTo (filter notPending loaded) blank))
  | _, _ => None
  end.

(** A reload of the page: the storage survives, the timers of the old page
    do not. *)
Definition reload (st : App) : option App :=
  let b := browser st in
  mount (world st) (draws st)
    (mkBrowser (has_window b) (localStorage b) (written b) [] (elapsed b)).

(** ** Memory and storage in step *)

(** The page has a window and storage accepts every write. *)
Definition writes_accepted (st : App) : Prop :=
  has_window (browser st) = true
  ∧ ∀ n, setItem_throws_at (world st) n = false.

(** What a load of the log key returns is the in-memory log without its
    pending entries. *)
Definition log_in_step (st : App) : Prop :=
  loadFromStorage STORAGE_KEYS.LOGS (VLogs []) st
  = VLogs (filter notPending (logs st)).

(** What a load of the transactions key returns is the in-memory history. *)
Definition history_in_step (st : App) : Prop :=
  loadFromStorage STORAGE_KEYS.TRANSACTIONS (VTxs []) st
  = VTxs (transactions st).

(** The operation is not the Clear button of the activity log. *)
Definition not_clearLogs (op : LedgerOp) : Prop :=
  match op with OpClearLogs => False | _ => True end.

(** ** Busy indicators *)

(** The [useState] indicator that goes with a guard. *)
Definition busy_of (g : Guard) (st : App) : bool :=
  match g with
  | GSign => isSigning (busy st)
  | GSend => isSending (busy st)
  | GSubscribe => isSubscribing (busy st)
  | GAirdrop => isAirdropping (busy st)
  end.

(** Every indicator shows what its ref holds. *)
Definition mirrored (st : App) : Prop :=
  ∀ g, busy_of g st = locked g st.

(** Status, signature and details of a record: what the history shows of
    it besides the time. *)
Definition shown (r : StoredTransaction) : TxStatus * string * option string :=
  (status r, signature r, tx_details r).

(** ** Force reset *)

(** The keys [handleForceReset] names. *)
Definition lazorkitKeys : list string :=
  [ "lazorkit-wallet"; "lazorkit-credentials"; "lazorkit-wallet-store";
    "CREDENTIAL_ID"; "PUBLIC_KEY"; "SMART_WALLET_ADDRESS";
    "CREDENTIALS_TIMESTAMP";
    STORAGE_KEYS.LOGS; STORAGE_KEYS.TRANSACTIONS; STORAGE_KEYS.LAST_WALLET ].

(** [const value = localStorage.getItem(key); if (value) { ...
    localStorage.removeItem(key) }]: an absent key and an empty text are
    left alone. *)
Definition remove_if_set (st : App) (key : string) : App :=
  match getItem key st with
  | None | Some EmptyText => st
  | Some _ => removeItem key st
  end.

(** [Object.keys(localStorage)] *)
Definition storage_keys (st : App) : list string :=
  (map_to_list (localStorage (browser st))).*1.

Section ForceReset.
(** [String.prototype.toLowerCase] *)
Variable toLowerCase : string -> string.

(** [key.toLowerCase().includes('lazor') ||
    key.toLowerCase().includes('passkey')] *)
Definition lazor_related (key : string) : bool :=
  includes "lazor" (toLowerCase key) || includes "passkey" (toLowerCase key).

Definition remove_if_related (st : App) (key : string) : App :=
  if lazor_related key then removeItem key st else st.

(** The two [forEach] loops over the storage. *)
Definition clear_lazorkit_storage (st : App) : App :=
  let st := foldl remove_if_set st lazorkitKeys in
  foldl remove_if_related st (storage_keys st).

(** [handleForceReset] from the settlement of the awaited [disconnect()]
    on; a rejection is caught and only reported to the console.  The number
    is the delay of the [setTimeout] whose callback reloads the page. *)
Definition handleForceReset_resume (settled : Settled unit) (st : App) : App * nat :=
  let st := clear_lazorkit_storage st in
  let st := setLogsTo [] st in
  let st := setTransactionsTo [] st in
  let st := setBalance 0 st in
  let st := setLastSignature None st in
  let st := addLog info "Reset complete! Reload page and reconnect." None st in
  (st, 1500).
End ForceReset.

(** Lower case of the letters A to Z, every other byte as it is. *)
Fixpoint ascii_lower (s : string) : string :=
  match s with
  | EmptyString => EmptyString
  | String c rest =>
      let n := Ascii.nat_of_ascii c in
      String (if (65 <=? n) && (n <=? 90) then Ascii.ascii_of_nat (n + 32) else c)
        (ascii_lower rest)
  end.

(** ** The effects of [WalletDemo] *)

(** The effect that persists the wallet address, with its test:
    [if (smartWalletAddress) saveToStorage(LAST_WALLET, smartWalletAddress)]. *)
Definition persistWallet_effect (sdk : Sdk) (st : App) : App :=
  match smartWalletAddress sdk with
  | Some address => persistWallet address st
  | None => st
  end.

(** The effect that refreshes the balance:
    [connection.getBalance(smartWalletPubkey).then(setBalance)
    .catch(console.error)]. *)
Definition balance_effect (sdk : Sdk) (st : App) : App * Task :=
  match smartWalletPubkey sdk with
  | Some pubkey =>
      (st, Suspended (getBalance pubkey) (λ settled st,
        match settled with
        | Fulfilled newBal => (setBalance newBal st, Finished Returned)
        | Rejected _ => (st, Finished Returned)
        end))
  | None => (st, Finished Returned)
  end.

(** ** Views of the state *)

(** The history and the text under its key. *)
Definition history_view (st : App) : list StoredTransaction * option Stored :=
  (transactions st, localStorage (browser st) !! STORAGE_KEYS.TRANSACTIONS).

(** The refs and the busy indicators. *)
Definition indicators (st : App) : Refs * Flags := (refs st, busy st).

(** A text [if (value)] takes for set: present and not empty. *)
Definition is_set (text : option Stored) : bool :=
  match text with
  | None | Some EmptyText => false
  | Some _ => true
  end.

(** * Properties *)

(** ** Frame lemmas: what the primitives leave alone *)

Section Frames.
Implicit Types (st : App) (key : string) (v : JsVal).

Lemma saveToStorage_browser key v st :
  browser (saveToStorage key v st) = browser st
  ∨ browser (saveToStorage key v st)
    = mkBrowser (has_window (browser st))
        (<[key := Serialized v]> (localStorage (browser st)))
        ((key, v) :: written (browser st))
        (timers (browser st)) (elapsed (browser st)).
Proof.
  unfold saveToStorage, setItem.
  destruct (has_window (browser st)) eqn:Hw; simpl; [|by left].
  destruct (setItem_throws_at _ _); simpl; [by left|right; by rewrite Hw].
Qed.

Lemma saveToStorage_frame key v st :
  let st' := saveToStorage key v st in
  logs st' = logs st ∧ transactions st' = transactions st
  ∧ refs st' = refs st ∧ busy st' = busy st
  ∧ balance st' = balance st ∧ lastSignature st' = lastSignature st
  ∧ selectedPlan st' = selectedPlan st ∧ world st' = world st
  ∧ timers (browser st') = timers (browser st)
  ∧ elapsed (browser st') = elapsed (browser st)
  ∧ has_window (browser st') = has_window (browser st).
Proof.
  cbv zeta. unfold saveToStorage, setItem.
  destruct (has_window (browser st)) eqn:Hw; simpl; rewrite ?Hw; [|done].
  destruct (setItem_throws_at _ _); simpl; by rewrite ?Hw.
Qed.

Lemma filter_notPending_id (l : list LogEntry) :
  length (filter (λ log, type log = pending) l) = 0 ->
  filter notPending l = l.
Proof.
  induction l as [|e l IH]; [done|].
  rewrite !filter_cons. unfold notPending at 1.
  destruct (decide (type e = pending)) as [Hp|Hp]; simpl; [done|].
  intros Hl. destruct (decide (type e ≠ pending)); [|done].
  by rewrite IH.
Qed.

Lemma saveToStorage_logs key v st : logs (saveToStorage key v st) = logs st.
Proof. apply saveToStorage_frame. Qed.

Lemma saveToStorage_transactions key v st :
  transactions (saveToStorage key v st) = transactions st.
Proof. apply saveToStorage_frame. Qed.

Lemma logs_addLog ty m d st :
  logs (addLog ty m d st)
  = take 30 ((newLogEntry ty m d st).1 :: baseLogs ty (logs st)).
Proof.
  unfold addLog, newLogEntry, randomUUID, newDate, addLog_updater.
  cbn [fst snd logs setLogsTo drawn].
  f_equal. f_equal. unfold baseLogs.
  destruct ty; simpl; try done;
    destruct (Nat.ltb_spec 0 (length (filter (λ log, type log = pending) (logs st))));
    try done; symmetry; apply filter_notPending_id; lia.
Qed.
End Frames.

(** ** The log ledger *)

Section LogLedger.
Implicit Types (st : App) (c : LogCall) (calls : list LogCall).

Lemma baseLogs_sublist ty (prev : list LogEntry) :
  baseLogs ty prev `sublist_of` prev.
Proof.
  unfold baseLogs. destruct (decide (ty = pending)); [done|].
  apply sublist_filter.
Qed.

Lemma baseLogs_settled ty (prev : list LogEntry) :
  ty ≠ pending -> Forall notPending (baseLogs ty prev).
Proof.
  intros Hty. unfold baseLogs. destruct (decide (ty = pending)); [done|].
  apply Forall_forall. intros e He.
  by apply list_elem_of_filter in He as [? _].
Qed.

Lemma logs_addLog_call st c :
  logs (addLog_call st c)
  = take 30 (entry_of c st :: baseLogs (call_type c) (logs st)).
Proof. apply logs_addLog. Qed.

Lemma logs_Playground_addLog_call st c :
  logs (Playground_addLog_call st c) = take 20 (entry_of c st :: logs st).
Proof. reflexivity. Qed.

Lemma addLog_call_sublist st c :
  logs (addLog_call st c) `sublist_of` (entry_of c st :: logs st).
Proof.
  rewrite logs_addLog_call.
  etrans; [apply sublist_take|].
  apply sublist_skip, baseLogs_sublist.
Qed.

Lemma addLogs_length calls st :
  length (logs st) ≤ 30 -> length (logs (addLogs calls st)) ≤ 30.
Proof.
  revert st. induction calls as [|c calls IH]; intros st Hst; [done|].
  apply IH. rewrite logs_addLog_call, length_take. lia.
Qed.

Lemma Playground_addLogs_length calls st :
  length (logs st) ≤ 30 -> length (logs (Playground_addLogs calls st)) ≤ 30.
Proof.
  revert st. induction calls as [|c calls IH]; intros st Hst; [done|].
  apply IH. rewrite logs_Playground_addLog_call, length_take. lia.
Qed.

(** Whatever append is in use, if one step keeps a subsequence of the new
    entry followed by the old ledger, a run keeps a subsequence of all
    created entries, newest first, followed by the initial ledger. *)
Lemma run_newest_first (step : App -> LogCall -> App) :
  (∀ st c, logs (step st c) `sublist_of` (entry_of c st :: logs st)) ->
  ∀ calls st,
    logs (foldl step st calls) `sublist_of` (created step calls st ++ logs st).
Proof.
  intros Hstep calls. induction calls as [|c calls IH]; intros st; [done|].
  simpl. etrans; [apply IH|].
  rewrite <- app_assoc. apply sublist_app; [done|]. apply Hstep.
Qed.

Lemma written_addLog_updater ty e st :
  ∃ fresh,
    written (browser (addLog_updater ty e st)) = fresh ++ written (browser st)
    ∧ Forall clean_write fresh
    ∧ (localStorage (browser (addLog_updater ty e st)) !! STORAGE_KEYS.LOGS
       = localStorage (browser st) !! STORAGE_KEYS.LOGS
       ∨ ∃ l, localStorage (browser (addLog_updater ty e st)) !! STORAGE_KEYS.LOGS
              = Some (Serialized (VLogs l)) ∧ Forall notPending l).
Proof.
  unfold addLog_updater. simpl.
  match goal with
  | |- context [saveToStorage ?k (VLogs ?v) ?s] =>
      destruct (saveToStorage_browser k (VLogs v) s) as [-> | ->];
      set (saved := v)
  end.
  - exists []. by repeat split; [constructor|left].
  - assert (Forall notPending saved) as Hsaved.
    { apply Forall_forall. intros x Hx.
      by apply list_elem_of_filter in Hx as [? _]. }
    exists [(STORAGE_KEYS.LOGS, VLogs saved)]. simpl. repeat split.
    + repeat constructor. intros _. by exists saved.
    + right. exists saved. by rewrite lookup_insert_eq.
Qed.
End LogLedger.

(** ** What reaches durable storage under the log key *)

Section Persistence.
Implicit Types (st : App).

Lemma persists_cleanly_refl st : persists_cleanly st st.
Proof. exists []. by repeat split; [constructor|left]. Qed.

Lemma persists_cleanly_same st st' :
  browser st' = browser st -> persists_cleanly st st'.
Proof.
  intros Hb. exists []. rewrite Hb. by repeat split; [constructor|left].
Qed.

Lemma persists_cleanly_trans st1 st2 st3 :
  persists_cleanly st1 st2 -> persists_cleanly st2 st3 ->
  persists_cleanly st1 st3.
Proof.
  intros (f1 & Hw1 & Hc1 & Hs1) (f2 & Hw2 & Hc2 & Hs2).
  exists (f2 ++ f1). repeat split.
  - by rewrite Hw2, Hw1, app_assoc.
  - by apply Forall_app.
  - destruct Hs2 as [Heq|?]; [rewrite Heq; exact Hs1|by right].
Qed.

Lemma addLog_persists_cleanly ty m d st :
  persists_cleanly st (addLog ty m d st).
Proof.
  unfold addLog, newLogEntry, randomUUID, newDate. simpl.
  eapply persists_cleanly_trans; [|apply written_addLog_updater].
  by apply persists_cleanly_same.
Qed.

Lemma clearPendingLogs_persists_cleanly st :
  persists_cleanly st (clearPendingLogs st).
Proof.
  unfold clearPendingLogs.
  destruct (Nat.eqb _ 0); [apply persists_cleanly_refl|]. simpl.
  match goal with
  | |- context [saveToStorage ?k (VLogs ?v) ?s] =>
      destruct (saveToStorage_browser k (VLogs v) s) as [Hb | Hb];
      set (saved := v) in *
  end.
  - by apply persists_cleanly_same.
  - assert (Forall notPending saved) as Hsaved.
    { apply Forall_forall. intros x Hx.
      by apply list_elem_of_filter in Hx as [? _]. }
    exists [(STORAGE_KEYS.LOGS, VLogs saved)]. simpl. rewrite Hb. simpl.
    repeat split.
    + repeat constructor. intros _. by exists saved.
    + right. exists saved. by rewrite lookup_insert_eq.
Qed.

Lemma addTransaction_persists_cleanly tx st :
  persists_cleanly st (addTransaction tx st).
Proof.
  unfold addTransaction, newDate. simpl.
  match goal with
  | |- context [saveToStorage ?k ?v ?s] =>
      destruct (saveToStorage_browser k v s) as [Hb | Hb];
      set (saved := v) in *
  end.
  - by apply persists_cleanly_same.
  - exists [(STORAGE_KEYS.TRANSACTIONS, saved)]. simpl. rewrite Hb. simpl.
    repeat split.
    + repeat constructor. intros Hk. simpl in Hk. discriminate Hk.
    + left. by rewrite lookup_insert_ne.
Qed.

Lemma clearHistory_persists_cleanly st :
  persists_cleanly st (clearHistory st).
Proof.
  exists []. simpl. repeat split; [constructor|].
  left. by rewrite lookup_delete_ne.
Qed.

Lemma persistWallet_persists_cleanly address st :
  persists_cleanly st (persistWallet address st).
Proof.
  unfold persistWallet.
  destruct (saveToStorage_browser STORAGE_KEYS.LAST_WALLET (VStr address) st)
    as [Hb | Hb].
  - by apply persists_cleanly_same.
  - exists [(STORAGE_KEYS.LAST_WALLET, VStr address)]. rewrite Hb. simpl.
    repeat split.
    + repeat constructor. intros Hk. simpl in Hk. discriminate Hk.
    + left. by rewrite lookup_insert_ne.
Qed.

Lemma apply_op_persists_cleanly st op :
  persists_cleanly st (apply_op st op).
Proof.
  destruct op; simpl.
  - apply addLog_persists_cleanly.
  - apply clearPendingLogs_persists_cleanly.
  - by apply persists_cleanly_same.
  - apply addTransaction_persists_cleanly.
  - apply clearHistory_persists_cleanly.
  - apply persistWallet_persists_cleanly.
Qed.
End Persistence.

(** C1. Over every run of ledger operations (appends of any kind, pending
    clean-ups, clears, and the history and wallet writes in between), every value
    written to localStorage under the log key is a list of log entries
    without a pending one, and the text held under that key afterwards is
    either the one held before the run or such a pending-free list. *)
Theorem persisted_logs_never_pending (ops : list LedgerOp) (st : App) :
  ∃ fresh,
    written (browser (apply_ops ops st)) = fresh ++ written (browser st)
    ∧ Forall clean_write fresh
    ∧ (localStorage (browser (apply_ops ops st)) !! STORAGE_KEYS.LOGS
       = localStorage (browser st) !! STORAGE_KEYS.LOGS
       ∨ ∃ l, localStorage (browser (apply_ops ops st)) !! STORAGE_KEYS.LOGS
              = Some (Serialized (VLogs l)) ∧ Forall notPending l).
Proof.
  change (persists_cleanly st (apply_ops ops st)).
  revert st. induction ops as [|op ops IH]; intros st.
  - apply persists_cleanly_refl.
  - simpl. eapply persists_cleanly_trans; [apply apply_op_persists_cleanly|].
    apply IH.
Qed.

(** ** The string helpers on the texts the page formats *)

Example slices_of_an_address :
  slice_to 8 "7xKXtg2CW87d" = "7xKXtg2C"
  ∧ slice_last 4 "7xKXtg2CW87d" = "W87d"
  ∧ slice_last 4 "ab" = "ab".
Proof. repeat split. Qed.

Example rate_limit_messages :
  includes "429" "429 Too Many Requests" = true
  ∧ includes "limit" "airdrop limit reached" = true
  ∧ includes "429" "Failed to fetch" = false.
Proof. repeat split. Qed.

(** ** Time stamps under a clock that does not run backwards *)

Section Chronology.
Implicit Types (st : App) (l k : list LogEntry).

Lemma sublist_Forall_entries (P : LogEntry -> Prop) l k :
  l `sublist_of` k -> Forall P k -> Forall P l.
Proof.
  induction 1 as [|x l k _ IH|x l k _ IH]; intros Hk; [done| |].
  - apply Forall_cons in Hk as [? ?]. constructor; auto.
  - apply Forall_cons in Hk as [_ ?]. auto.
Qed.

Lemma sublist_newest_first l k :
  l `sublist_of` k -> newest_first k -> newest_first l.
Proof.
  unfold newest_first.
  induction 1 as [|x l k Hsub IH|x l k _ IH]; intros Hk; [done| |].
  - apply StronglySorted_cons in Hk as [Hx Hk].
    apply StronglySorted_cons. split; [|by apply IH].
    by apply (sublist_Forall_entries _ l k).
  - apply StronglySorted_cons in Hk as [_ Hk]. by apply IH.
Qed.

Lemma draws_saveToStorage key v st : draws st ≤ draws (saveToStorage key v st).
Proof.
  unfold saveToStorage, setItem.
  destruct (has_window (browser st)); simpl; [|lia].
  destruct (setItem_throws_at _ _); simpl; lia.
Qed.

Lemma world_saveToStorage key v st : world (saveToStorage key v st) = world st.
Proof. apply saveToStorage_frame. Qed.

Lemma world_addLog ty m d st : world (addLog ty m d st) = world st.
Proof.
  unfold addLog, addLog_updater, newLogEntry, randomUUID, newDate.
  cbn [fst snd world setLogsTo]. by rewrite world_saveToStorage.
Qed.

Lemma draws_addLog ty m d st : S (draws st) ≤ draws (addLog ty m d st).
Proof.
  unfold addLog, addLog_updater, newLogEntry, randomUUID, newDate.
  cbn [fst snd draws setLogsTo].
  etrans; [|apply draws_saveToStorage]. simpl. lia.
Qed.

Lemma timestamp_newLogEntry ty m d st :
  timestamp (newLogEntry ty m d st).1 = Date_at (world st) (S (draws st)).
Proof. reflexivity. Qed.

Lemma addLog_chronological ty m d st :
  monotone_clock (world st) -> chronological st ->
  chronological (addLog ty m d st).
Proof.
  intros Hclock [Hsorted Hpast]. unfold chronological.
  rewrite world_addLog, logs_addLog.
  set (e := (newLogEntry ty m d st).1).
  assert (newest_first (e :: baseLogs ty (logs st))) as Hnew.
  { apply StronglySorted_cons. split.
    - apply (sublist_Forall_entries _ _ (logs st)); [apply baseLogs_sublist|].
      eapply Forall_impl; [exact Hpast|]. intros x Hx. cbv beta in Hx |- *.
      unfold e. rewrite timestamp_newLogEntry.
      etrans; [exact Hx|]. apply Hclock. lia.
    - apply (sublist_newest_first _ (logs st)); [apply baseLogs_sublist|done]. }
  split.
  - apply (sublist_newest_first _ (e :: baseLogs ty (logs st)));
      [apply sublist_take|exact Hnew].
  - apply Forall_take. constructor.
    + unfold e. rewrite timestamp_newLogEntry. apply Hclock.
      pose proof (draws_addLog ty m d st). lia.
    + apply (sublist_Forall_entries _ _ (logs st)); [apply baseLogs_sublist|].
      eapply Forall_impl; [exact Hpast|]. intros x Hx. cbv beta in Hx |- *.
      etrans; [exact Hx|]. apply Hclock.
      pose proof (draws_addLog ty m d st). lia.
Qed.

(** With a clock that does not run backwards, a log ordered by time stamp
    stays ordered by time stamp, most recent first, over every run of
    [addLog]. *)
Lemma addLogs_chronological (calls : list LogCall) st :
  monotone_clock (world st) -> chronological st ->
  chronological (addLogs calls st).
Proof.
  revert st. induction calls as [|c calls IH]; intros st Hclock Hst; [done|].
  apply IH.
  - unfold addLog_call. by rewrite world_addLog.
  - by apply addLog_chronological.
Qed.
End Chronology.

(** C2. When the new entry is of kind success, error or info, [addLog]
    removes every pending entry of the in-memory sequence before it prepends
    the new entry, so no pending entry is left in memory after the call. *)
Theorem settling_addLog_retires_pending
    (ty : LogType) (m : string) (d : option string) (st : App) :
  ty ≠ pending ->
  logs (addLog ty m d st)
  = take 30 ((newLogEntry ty m d st).1 :: filter notPending (logs st))
  ∧ Forall notPending (logs (addLog ty m d st)).
Proof.
  intros Hty. rewrite logs_addLog.
  assert (baseLogs ty (logs st) = filter notPending (logs st)) as Hbase.
  { unfold baseLogs. by destruct (decide (ty = pending)). }
  split; [by rewrite Hbase|].
  apply Forall_take. constructor.
  - unfold newLogEntry, notPending. simpl. exact Hty.
  - by apply baseLogs_settled.
Qed.

Lemma settling_addLog_retires_pending_witness :
  let st := addLog pending "Requesting signature..." None (first_visit calm_world) in
  (∃ e, e ∈ logs st ∧ type e = pending)
  ∧ success ≠ pending
  ∧ Forall notPending (logs (addLog success "Message signed!" None st)).
Proof.
  intros st. split; [|split].
  - eexists. split; [apply list_elem_of_here|reflexivity].
  - discriminate.
  - apply (settling_addLog_retires_pending success "Message signed!" None st).
    discriminate.
Defined.

(** C3. From a ledger within capacity, after every sequence of [addLog]
    calls the in-memory ledger holds at most 30 entries and is ordered
    newest first: it is a subsequence of the created entries, newest first,
    followed by the initial ledger, and one more call puts its new entry in
    front and keeps the first 30.  The PlaygroundSection variant, which
    keeps 20, satisfies the same bound and order. *)
Theorem addLogs_bounded_newest_first (calls : list LogCall) (st : App) :
  length (logs st) ≤ 30 ->
  (length (logs (addLogs calls st)) ≤ 30
   ∧ logs (addLogs calls st) `sublist_of` (created addLog_call calls st ++ logs st)
   ∧ ∀ c, logs (addLog_call (addLogs calls st) c)
          = take 30 (entry_of c (addLogs calls st)
                     :: baseLogs (call_type c) (logs (addLogs calls st))))
  ∧ (length (logs (Playground_addLogs calls st)) ≤ 30
     ∧ logs (Playground_addLogs calls st)
         `sublist_of` (created Playground_addLog_call calls st ++ logs st)
     ∧ ∀ c, logs (Playground_addLog_call (Playground_addLogs calls st) c)
            = take 20 (entry_of c (Playground_addLogs calls st)
                       :: logs (Playground_addLogs calls st))).
Proof.
  intros Hcap. split; (split; [|split]).
  - by apply addLogs_length.
  - apply run_newest_first. apply addLog_call_sublist.
  - intros c. apply logs_addLog_call.
  - by apply Playground_addLogs_length.
  - apply run_newest_first. intros s c.
    rewrite logs_Playground_addLog_call. apply sublist_take.
  - intros c. apply logs_Playground_addLog_call.
Qed.

Lemma addLogs_bounded_newest_first_witness :
  let calls := replicate 40 (mkLogCall info "Disconnected" None)
               ++ [mkLogCall pending "Requesting signature..." None;
                   mkLogCall success "Message signed!" None] in
  length (logs (first_visit calm_world)) ≤ 30
  ∧ length (logs (addLogs calls (first_visit calm_world))) ≤ 30.
Proof.
  intros calls.
  assert (length (logs (first_visit calm_world)) ≤ 30) as Hcap by (simpl; lia).
  split; [exact Hcap|].
  apply (addLogs_bounded_newest_first calls (first_visit calm_world) Hcap).
Defined.

(** The sign-message narration: pending, then success, then info leaves
    the info and the success entry, newest first. *)
Example sign_message_narration :
  map (λ e, (type e, message e))
    (logs (addLogs [mkLogCall pending "Requesting signature..." None;
                    mkLogCall success "Message signed!" None;
                    mkLogCall info "Sig: abc123..." None]
             (first_visit calm_world)))
  = [(info, "Sig: abc123..."); (success, "Message signed!")].
Proof. reflexivity. Qed.

(** ** The transaction history ledger *)

Section History.
Implicit Types (st : App) (tx : TxInput) (txs : list TxInput).

Lemma transactions_addTransaction tx st :
  transactions (addTransaction tx st)
  = take 50 (record_of tx st :: transactions st).
Proof.
  unfold addTransaction, newDate.
  cbn [fst snd transactions setTransactionsTo]. reflexivity.
Qed.

Lemma take_app_take {A} (n : nat) (l1 l2 : list A) :
  take n (l1 ++ take n l2) = take n (l1 ++ l2).
Proof. rewrite !take_app, take_take. do 2 f_equal. lia. Qed.

Lemma addTransactions_exact txs st :
  length (transactions st) ≤ 50 ->
  transactions (addTransactions txs st)
  = take 50 (recorded txs st ++ transactions st).
Proof.
  revert st. induction txs as [|tx txs IH]; intros st Hcap.
  - simpl. by rewrite take_ge.
  - change (addTransactions (tx :: txs) st)
      with (addTransactions txs (addTransaction tx st)).
    rewrite IH; [|rewrite transactions_addTransaction, length_take; lia].
    rewrite transactions_addTransaction, take_app_take.
    simpl. by rewrite <- app_assoc.
Qed.

Lemma addTransaction_persisted tx st :
  has_window (browser st) = true ->
  setItem_throws_at (world st) (S (draws st)) = false ->
  localStorage (browser (addTransaction tx st)) !! STORAGE_KEYS.TRANSACTIONS
  = Some (Serialized (VTxs (transactions (addTransaction tx st)))).
Proof.
  intros Hw Hq. rewrite transactions_addTransaction.
  unfold addTransaction, saveToStorage, setItem, newDate. simpl.
  rewrite Hw, Hq. simpl. by rewrite lookup_insert_eq.
Qed.
End History.

(** C7. From a history within capacity, after every sequence of
    [addTransaction] calls the history holds at most 50 records, newest
    first: it is the first 50 of the created records, newest first, followed
    by the initial history.  One more call puts its record, stamped with the
    current time, in front, keeps the first 50 and, when the page has a
    window and the write is accepted, leaves exactly that sequence under the
    transactions key.  Clear History empties the in-memory history and
    removes the persisted value. *)
Theorem addTransactions_bounded_newest_first (txs : list TxInput) (st : App) :
  length (transactions st) ≤ 50 ->
  length (transactions (addTransactions txs st)) ≤ 50
  ∧ transactions (addTransactions txs st)
    = take 50 (recorded txs st ++ transactions st)
  ∧ (∀ tx,
       let st1 := addTransactions txs st in
       transactions (addTransaction tx st1)
       = take 50 (record_of tx st1 :: transactions st1)
       ∧ tx_timestamp (record_of tx st1) = Date_at (world st1) (draws st1)
       ∧ (has_window (browser st1) = true ->
          setItem_throws_at (world st1) (S (draws st1)) = false ->
          localStorage (browser (addTransaction tx st1))
            !! STORAGE_KEYS.TRANSACTIONS
          = Some (Serialized (VTxs (transactions (addTransaction tx st1))))))
  ∧ transactions (clearHistory (addTransactions txs st)) = []
  ∧ localStorage (browser (clearHistory (addTransactions txs st)))
      !! STORAGE_KEYS.TRANSACTIONS = None.
Proof.
  intros Hcap.
  assert (transactions (addTransactions txs st)
          = take 50 (recorded txs st ++ transactions st)) as Hexact.
  { by apply addTransactions_exact. }
  split; [|split; [exact Hexact|split; [|split]]].
  - rewrite Hexact, length_take. lia.
  - intros tx st1. split; [apply transactions_addTransaction|].
    split; [reflexivity|]. apply addTransaction_persisted.
  - reflexivity.
  - simpl. apply lookup_delete_eq.
Qed.

Lemma addTransactions_bounded_newest_first_witness :
  let txs := replicate 60 (mkTxInput "" transfer tx_failed (Some "insufficient funds"))
             ++ [mkTxInput "5xYz" transfer tx_success (Some "ok")] in
  length (transactions (first_visit calm_world)) ≤ 50
  ∧ length (transactions (addTransactions txs (first_visit calm_world))) ≤ 50.
Proof.
  intros txs.
  assert (length (transactions (first_visit calm_world)) ≤ 50) as Hcap
    by (simpl; lia).
  split; [exact Hcap|].
  apply (addTransactions_bounded_newest_first txs (first_visit calm_world) Hcap).
Defined.

(** A failed attempt followed by a successful one: the successful record
    comes first, and both are under the transactions key. *)
Example failed_then_successful_transfer :
  let st := addTransactions
              [mkTxInput "" transfer tx_failed (Some "insufficient funds");
               mkTxInput "5xYz" transfer tx_success (Some "ok")]
              (first_visit calm_world) in
  map (λ r, (status r, signature r)) (transactions st)
  = [(tx_success, "5xYz"); (tx_failed, "")]
  ∧ loadFromStorage STORAGE_KEYS.TRANSACTIONS (VTxs []) st
    = VTxs (transactions st).
Proof. split; vm_compute; reflexivity. Qed.

(** ** The persistent store adapter *)

(** C8, as amended. [loadFromStorage] and [saveToStorage] are total, so
    neither raises.  A load returns the default when there is no window,
    when the key is absent, and when the stored text is empty or does not
    parse; with a window it returns the deserialized value of a stored text
    that parses.  When the write throws, [saveToStorage] leaves the store as
    it was, so a later load of the key returns what a load before the save
    returned: the default if the key was absent or unreadable, the value
    stored earlier otherwise. *)
Theorem storage_adapter_fallbacks (key : string) (dflt v : JsVal) (st : App) :
  (has_window (browser st) = false -> loadFromStorage key dflt st = dflt)
  ∧ (localStorage (browser st) !! key = None ->
     loadFromStorage key dflt st = dflt)
  ∧ (localStorage (browser st) !! key = Some Malformed
     ∨ localStorage (browser st) !! key = Some EmptyText ->
     loadFromStorage key dflt st = dflt)
  ∧ (∀ x, has_window (browser st) = true ->
          localStorage (browser st) !! key = Some (Serialized x) ->
          loadFromStorage key dflt st = x)
  ∧ (setItem_throws_at (world st) (draws st) = true ->
     localStorage (browser (saveToStorage key v st)) = localStorage (browser st)
     ∧ loadFromStorage key dflt (saveToStorage key v st)
       = loadFromStorage key dflt st).
Proof.
  unfold loadFromStorage, getItem.
  split; [|split; [|split; [|split]]].
  - by intros ->.
  - intros ->. by destruct (has_window _).
  - intros [-> | ->]; by destruct (has_window _).
  - by intros x -> ->.
  - intros Hq. unfold saveToStorage, setItem. rewrite Hq.
    destruct (has_window (browser st)) eqn:Hw; simpl; rewrite ?Hw; by split.
Qed.

Lemma storage_adapter_fallbacks_witness :
  let st := saveToStorage STORAGE_KEYS.LAST_WALLET (VStr "7xKXtg2C")
              (first_visit (quota_after 1)) in
  setItem_throws_at (world st) (draws st) = true
  ∧ loadFromStorage STORAGE_KEYS.LAST_WALLET (VStr "")
      (saveToStorage STORAGE_KEYS.LAST_WALLET (VStr "9aBcDe1F") st)
    = loadFromStorage STORAGE_KEYS.LAST_WALLET (VStr "") st.
Proof.
  intros st.
  assert (setItem_throws_at (world st) (draws st) = true) as Hq by reflexivity.
  split; [exact Hq|].
  apply (storage_adapter_fallbacks STORAGE_KEYS.LAST_WALLET (VStr "")
           (VStr "9aBcDe1F") st).
  exact Hq.
Defined.

(** C8 as first stated fails: after a write that throws, a load of the key
    returns the value stored earlier, not the caller's default. *)
Lemma failed_save_keeps_earlier_value :
  ¬ (∀ (key : string) (dflt v : JsVal) (st : App),
       has_window (browser st) = true ->
       setItem_throws_at (world st) (draws st) = true ->
       loadFromStorage key dflt (saveToStorage key v st) = dflt).
Proof.
  intros Hclaim.
  specialize (Hclaim STORAGE_KEYS.LAST_WALLET (VStr "") (VStr "9aBcDe1F")
                (saveToStorage STORAGE_KEYS.LAST_WALLET (VStr "7xKXtg2C")
                   (first_visit (quota_after 1)))
                eq_refl eq_refl).
  vm_compute in Hclaim. discriminate Hclaim.
Qed.

(** ** The Clear button of the activity log *)

Lemma clearLogs_browser (st : App) : browser (clearLogs st) = browser st.
Proof. reflexivity. Qed.

(** C4. The Clear button empties the in-memory log but leaves durable
    storage as it was: the text under the log key is not removed, and a load
    of the key after the click returns what it returned before. *)
Theorem clearLogs_leaves_persisted_logs (st : App) :
  logs (clearLogs st) = []
  ∧ localStorage (browser (clearLogs st)) !! STORAGE_KEYS.LOGS
    = localStorage (browser st) !! STORAGE_KEYS.LOGS
  ∧ ∀ dflt, loadFromStorage STORAGE_KEYS.LOGS dflt (clearLogs st)
            = loadFromStorage STORAGE_KEYS.LOGS dflt st.
Proof.
  split; [reflexivity|]. split.
  - by rewrite clearLogs_browser.
  - intros dflt. unfold loadFromStorage, getItem.
    by rewrite clearLogs_browser.
Qed.

(** One persisted entry, then Clear: the log key still holds the entry, and
    it is what the next page load reads. *)
Example clear_then_reload :
  let st := addLog info "Disconnected" None (first_visit calm_world) in
  logs (clearLogs st) = []
  ∧ localStorage (browser (clearLogs st)) !! STORAGE_KEYS.LOGS
    = Some (Serialized (VLogs (logs st)))
  ∧ loadFromStorage STORAGE_KEYS.LOGS (VLogs []) (clearLogs st)
    = VLogs [mkLogEntry "0" 1 info "Disconnected" None].
Proof. repeat split; vm_compute; reflexivity. Qed.

(** ** Connect *)

Lemma logs_handleConnect (sdk : Sdk) (st : App) :
  logs (handleConnect sdk st).1
  = [(newLogEntry pending "Opening passkey authentication..." None st).1].
Proof. unfold handleConnect. cbn [fst]. by rewrite logs_addLog. Qed.

(** C10. A connect attempt replaces the whole in-memory log by the single
    pending entry it appends: nothing of the earlier log, of whatever kind,
    is left. *)
Theorem handleConnect_discards_log (sdk : Sdk) (st : App) :
  logs (handleConnect sdk st).1
  = [(newLogEntry pending "Opening passkey authentication..." None st).1]
  ∧ Forall (λ e, type e = pending) (logs (handleConnect sdk st).1).
Proof.
  split; [apply logs_handleConnect|].
  rewrite logs_handleConnect. by repeat constructor.
Qed.

(** ** Guards and timers *)

Section Guards.
Implicit Types (st : App) (g : Guard) (sdk : Sdk).

Lemma guards_of_saveToStorage key v st :
guards_of (saveToStorage key v st) = guards_of st.
Proof.
unfold guards_of.
destruct (saveToStorage_frame key v st)
  as (_ & _ & -> & _ & _ & _ & _ & _ & -> & -> & _).
reflexivity.
Qed.

Lemma guards_of_addLog ty m d st : guards_of (addLog ty m d st) = guards_of st.
Proof.
unfold addLog, addLog_updater, newLogEntry, randomUUID, newDate.
cbn [fst snd].
match goal with
| |- guards_of (setLogsTo ?l ?s) = _ => change (guards_of s = guards_of st)
end.
by rewrite guards_of_saveToStorage.
Qed.

Lemma guards_of_clearPendingLogs st :
guards_of (clearPendingLogs st) = guards_of st.
Proof.
unfold clearPendingLogs. destruct (Nat.eqb _ 0); [done|].
cbv zeta.
match goal with
| |- guards_of (setLogsTo ?l ?s) = _ => change (guards_of s = guards_of st)
end.
by rewrite guards_of_saveToStorage.
Qed.

Lemma guards_of_addTransaction tx st :
guards_of (addTransaction tx st) = guards_of st.
Proof.
unfold addTransaction, newDate. cbn [fst snd].
match goal with
| |- guards_of (setTransactionsTo ?l ?s) = _ =>
    change (guards_of s = guards_of st)
end.
by rewrite guards_of_saveToStorage.
Qed.


Lemma locked_unlock g g' st :
locked g (unlock g' st) = if decide (g = g') then false else locked g st.
Proof. by destruct g, g'. Qed.

Lemma locked_lock g g' st :
locked g (lock g' st) = if decide (g = g') then true else locked g st.
Proof. by destruct g, g'. Qed.

Lemma locked_fired g (fired : list Timer) st :
locked g (foldl (λ s t, unlock (unlocks t) s) st fired)
= if existsb (λ t, bool_decide (unlocks t = g)) fired then false
  else locked g st.
Proof.
revert st. induction fired as [|t fired IH]; intros st; [done|].
simpl. rewrite IH, locked_unlock.
destruct (existsb _ fired); [by rewrite orb_true_r|].
rewrite orb_false_r.
destruct (decide (g = unlocks t)) as [->|Hne].
- by rewrite bool_decide_eq_true_2.
- by rewrite bool_decide_eq_false_2.
Qed.

Lemma existsb_filter_due g now (ts : list Timer) :
existsb (λ t, bool_decide (unlocks t = g)) (filter (λ t, due t ≤ now) ts)
= releases g now ts.
Proof.
unfold releases. induction ts as [|t ts IH]; [done|].
rewrite filter_cons. simpl.
destruct (decide (due t ≤ now)) as [Hd|Hd]; simpl.
- by rewrite IH, (bool_decide_eq_true_2 _ Hd), andb_true_r.
- by rewrite IH, (bool_decide_eq_false_2 _ Hd), andb_false_r.
Qed.

(** After [dt] milliseconds a guard is unlocked if one of its timers came
  due, and is as it was otherwise. *)
Lemma locked_advance g dt st :
locked g (advance dt st)
= if releases g (elapsed (browser st) + dt) (timers (browser st)) then false
  else locked g st.
Proof.
unfold advance. cbv zeta. rewrite locked_fired, existsb_filter_due.
reflexivity.
Qed.
End Guards.

Section Handlers.
Implicit Types (st s : App) (g : Guard) (sdk : Sdk) (oracle : Oracle).

Lemma guards_of_setTimeout g d st :
guards_of (setTimeout g d st)
= (refs st, timers (browser st) ++ [mkTimer (elapsed (browser st) + d) g],
   elapsed (browser st)).
Proof. reflexivity. Qed.

Lemma guards_of_setBalance v st : guards_of (setBalance v st) = guards_of st.
Proof. reflexivity. Qed.

Lemma guards_of_setLastSignature v st :
guards_of (setLastSignature v st) = guards_of st.
Proof. reflexivity. Qed.

Lemma guards_of_setSelectedPlan v st :
guards_of (setSelectedPlan v st) = guards_of st.
Proof. reflexivity. Qed.

Lemma guards_of_setLogsTo v st : guards_of (setLogsTo v st) = guards_of st.
Proof. reflexivity. Qed.

Lemma guards_of_lock g st :
guards_of (lock g st)
= (refs (lock g st), timers (browser st), elapsed (browser st)).
Proof. by destruct g. Qed.

Lemma guards_of_finally_release g c st :
guards_of (finally_release g c st).1
= (refs st, timers (browser st) ++ [mkTimer (elapsed (browser st) + 500) g],
   elapsed (browser st)).
Proof.
unfold finally_release. cbn [fst]. rewrite guards_of_setTimeout.
pose proof (guards_of_clearPendingLogs st) as [= -> -> ->]. reflexivity.
Qed.

Lemma complete_finally_release oracle g c st :
complete oracle (finally_release g c st).2 (finally_release g c st).1
= ((finally_release g c st).1, c).
Proof. reflexivity. Qed.

Lemma isConnected_pubkey sdk :
isConnected sdk = true -> ∃ pubkey, smartWalletPubkey sdk = Some pubkey.
Proof.
unfold isConnected, smartWalletPubkey.
destruct (smartWalletAddress sdk); [by eexists|done].
Qed.

(** With the other tests passed, an attempt gets past the guard exactly
  when the guard's ref is not set. *)
Lemma acquired_iff_unlocked g planId sdk st :
ready g planId sdk = true ->
acquired (guarded_handler g planId sdk st) = negb (locked g st).
Proof.
intros Hready. destruct g; simpl in Hready |- *.
- apply andb_true_iff in Hready as [Hc Hs].
  unfold handleSignMessage. rewrite Hc, Hs. simpl.
  by destruct (isSigningRef (refs st)).
- apply andb_true_iff in Hready as [Hc Hs].
  apply isConnected_pubkey in Hc as [pk Hpk].
  unfold handleSendTransaction. rewrite Hpk, Hs. simpl.
  by destruct (isSendingRef (refs st)).
- apply andb_true_iff in Hready as [Hcs Hplan].
  apply andb_true_iff in Hcs as [Hc Hs].
  apply isConnected_pubkey in Hc as [pk Hpk].
  apply bool_decide_eq_true_1 in Hplan as [plan Hplan].
  unfold handleSubscribe. rewrite Hpk, Hs, Hplan. simpl.
  by destruct (isSubscribingRef (refs st)).
- apply isConnected_pubkey in Hready as [pk Hpk].
  unfold handleAirdrop. rewrite Hpk.
  by destruct (isAirdropRef (refs st)).
Qed.


(** Getting past the guard sets its ref and touches neither the timers nor
  the time. *)
Lemma acquired_locks g planId sdk st :
acquired (guarded_handler g planId sdk st) = true ->
guards_of (guarded_handler g planId sdk st).1
= (refs (lock g st), timers (browser st), elapsed (browser st)).
Proof.
destruct g; simpl.
- unfold handleSignMessage.
  destruct (_ || _); [done|]. intros _. cbn [fst].
  by rewrite guards_of_addLog, guards_of_lock.
- unfold handleSendTransaction.
  destruct (smartWalletPubkey sdk); [|done].
  destruct (_ || _); [done|]. intros _. cbn [fst].
  by rewrite guards_of_addLog, guards_of_lock.
- unfold handleSubscribe.
  destruct (smartWalletPubkey sdk); [|done].
  destruct (_ || _); [done|].
  destruct (find_plan planId); [|done]. intros _. cbn [fst].
  by rewrite guards_of_addLog, guards_of_setSelectedPlan, guards_of_lock.
- unfold handleAirdrop.
  destruct (smartWalletPubkey sdk); [|done].
  destruct (isAirdropRef (refs st)); [done|]. intros _. cbn [fst].
  by rewrite guards_of_addLog, guards_of_lock.
Qed.

Lemma guards_of_finally g c st :
guards_of (finally_release g c st).1 = released g (guards_of st).
Proof. apply guards_of_finally_release. Qed.

Create Rewrite HintDb guards.
#[local] Hint Rewrite guards_of_finally guards_of_addLog guards_of_addTransaction
guards_of_setBalance guards_of_setLastSignature guards_of_clearPendingLogs
guards_of_setLogsTo guards_of_setSelectedPlan : guards.

Lemma complete_suspended oracle {X} (call : Ext X) k s :
complete oracle (Suspended call k) s
= complete oracle (k (oracle X call) s).2 (k (oracle X call) s).1.
Proof. simpl. by destruct (k (oracle X call) s). Qed.

Lemma complete_finished oracle c s : complete oracle (Finished c) s = (s, c).
Proof. reflexivity. Qed.

Lemma finally_release_snd g c st : (finally_release g c st).2 = Finished c.
Proof. reflexivity. Qed.

(** Steps through a handler whose awaited calls settle as the oracle says,
  down to the [finally] block, and compares the guard views. *)
Ltac run_to_finally :=
repeat first
  [ rewrite complete_suspended
  | rewrite finally_release_snd
  | rewrite complete_finished
  | progress cbn [fst snd]
  | progress unfold airdrop_catch, send_catch, subscribe_catch
  | progress cbn [err_message]
  | match goal with
    | |- context [match ?o ?X ?c with Fulfilled _ => _ | Rejected _ => _ end] =>
        destruct (o X c) as [?|[?|?|]]
    | |- context [match ?r with Some _ => _ | None => _ end] => destruct r
    | |- context [if ?b then _ else _] => destruct b
    end ];
autorewrite with guards;
try reflexivity.

(** Once past the guard, however the awaited calls settle, the handler ends
  in its [finally] block: the ref stays set and one timer of 500 ms for the
  guard joins the queue. *)
Lemma completion_sets_timer g planId sdk oracle st s :
acquired (guarded_handler g planId sdk st) = true ->
guards_of (complete oracle (guarded_handler g planId sdk st).2 s).1
= released g (guards_of s).
Proof.
destruct g; simpl.
- unfold handleSignMessage.
  destruct (_ || _); [done|]. intros _. cbn [snd]. run_to_finally.
- unfold handleSendTransaction.
  destruct (smartWalletPubkey sdk); [|done].
  destruct (_ || _); [done|]. intros _. cbn [snd]. run_to_finally.
- unfold handleSubscribe.
  destruct (smartWalletPubkey sdk); [|done].
  destruct (_ || _); [done|].
  destruct (find_plan planId); [|done]. intros _. cbn [snd]. run_to_finally.
- unfold handleAirdrop.
  destruct (smartWalletPubkey sdk); [|done].
  destruct (isAirdropRef (refs st)); [done|]. intros _. cbn [snd].
  run_to_finally.
Qed.
End Handlers.

Section Cooldown.
Implicit Types (st : App) (g : Guard) (sdk : Sdk) (ts : list Timer).

Lemma browser_fired (fired : list Timer) st :
browser (foldl (λ s t, unlock (unlocks t) s) st fired) = browser st.
Proof.
revert st. induction fired as [|t fired IH]; intros st; [done|].
simpl. rewrite IH. by destruct (unlocks t).
Qed.

Lemma timers_advance dt st :
timers (browser (advance dt st))
= filter (λ t, ¬ due t ≤ elapsed (browser st) + dt) (timers (browser st)).
Proof. unfold advance. cbv zeta. by rewrite browser_fired. Qed.

Lemma elapsed_advance dt st :
elapsed (browser (advance dt st)) = elapsed (browser st) + dt.
Proof. unfold advance. cbv zeta. by rewrite browser_fired. Qed.

Lemma releases_none g now ts :
Forall (λ t, unlocks t ≠ g) ts -> releases g now ts = false.
Proof.
unfold releases. induction 1 as [|t ts Ht _ IH]; [done|].
simpl. by rewrite IH, (bool_decide_eq_false_2 _ Ht).
Qed.

Lemma releases_app g now ts1 ts2 :
releases g now (ts1 ++ ts2) = releases g now ts1 || releases g now ts2.
Proof. apply existsb_app. Qed.

Lemma no_timer_after_advance g dt st :
Forall (λ t, unlocks t ≠ g) (timers (browser st)) ->
Forall (λ t, unlocks t ≠ g) (timers (browser (advance dt st))).
Proof.
rewrite timers_advance, !Forall_forall. intros Hall t Ht.
apply list_elem_of_filter in Ht as [_ Ht]. by apply Hall.
Qed.

Lemma locked_refs g st st' : refs st' = refs st -> locked g st' = locked g st.
Proof. unfold locked. by intros ->. Qed.
End Cooldown.

(** C9. For each of the four guarded handlers, with the wallet ready and
    the guard free: the first attempt gets past the guard; a second attempt
    is dropped, at once and after any lapse of time, as long as the first
    operation has not reached its [finally] block; and once that block has
    set the 500 ms timer, an attempt [d] ms later gets past the guard
    exactly when [d] is at least 500. *)
Theorem guard_acquire_release
    (g : Guard) (planId : string) (sdk : Sdk) (oracle : Oracle) (st : App) :
  ready g planId sdk = true ->
  locked g st = false ->
  Forall (λ t, unlocks t ≠ g) (timers (browser st)) ->
  let r1 := guarded_handler g planId sdk st in
  acquired r1 = true
  ∧ acquired (guarded_handler g planId sdk r1.1) = false
  ∧ (∀ dt, acquired (guarded_handler g planId sdk (advance dt r1.1)) = false)
  ∧ (∀ dt d,
       let st2 := (complete oracle r1.2 (advance dt r1.1)).1 in
       acquired (guarded_handler g planId sdk (advance d st2))
       = bool_decide (500 ≤ d)).
Proof.
  intros Hready Hfree Htimers r1.
  assert (acquired r1 = true) as Hacq.
  { unfold r1. by rewrite acquired_iff_unlocked, Hfree. }
  pose proof (acquired_locks g planId sdk st Hacq) as Hview. fold r1 in Hview.
  injection Hview as Hrefs Hts Hel.
  assert (locked g r1.1 = true) as Hlocked.
  { rewrite (locked_refs g (lock g st) r1.1 Hrefs), locked_lock.
    by destruct (decide (g = g)). }
  assert (∀ dt, locked g (advance dt r1.1) = true) as Hstill.
  { intros dt. rewrite locked_advance, Hts, releases_none; done. }
  split; [exact Hacq|]. split; [|split].
  - by rewrite acquired_iff_unlocked, Hlocked.
  - intros dt. by rewrite acquired_iff_unlocked, Hstill.
  - intros dt d st2.
    pose proof (completion_sets_timer g planId sdk oracle st (advance dt r1.1) Hacq)
      as Hdone.
    fold r1 in Hdone. fold st2 in Hdone. injection Hdone as Hrefs2 Hts2 Hel2.
    rewrite acquired_iff_unlocked by done.
    rewrite locked_advance, Hts2, Hel2, releases_app, releases_none.
    2: { apply no_timer_after_advance. by rewrite Hts. }
    rewrite (locked_refs g (advance dt r1.1) st2 Hrefs2), Hstill.
    simpl. rewrite bool_decide_eq_true_2 by done. simpl. rewrite orb_false_r.
    destruct (decide (500 ≤ d)) as [Hd|Hd].
    + rewrite !bool_decide_eq_true_2; [done|lia|lia].
    + rewrite !bool_decide_eq_false_2; [done|lia|lia].
Qed.

Lemma guard_acquire_release_witness :
  let st := first_visit calm_world in
  let r1 := guarded_handler GSign "pro" connected_sdk st in
  let st2 := (complete fulfilling r1.2 (advance 120 r1.1)).1 in
  ready GSign "pro" connected_sdk = true
  ∧ locked GSign st = false
  ∧ Forall (λ t, unlocks t ≠ GSign) (timers (browser st))
  ∧ acquired r1 = true
  ∧ acquired (guarded_handler GSign "pro" connected_sdk r1.1) = false
  ∧ acquired (guarded_handler GSign "pro" connected_sdk (advance 499 st2)) = false
  ∧ acquired (guarded_handler GSign "pro" connected_sdk (advance 501 st2)) = true.
Proof.
  intros st r1 st2.
  assert (ready GSign "pro" connected_sdk = true) as Hready by reflexivity.
  assert (locked GSign st = false) as Hfree by reflexivity.
  assert (Forall (λ t, unlocks t ≠ GSign) (timers (browser st))) as Htimers
    by constructor.
  destruct (guard_acquire_release GSign "pro" connected_sdk fulfilling st
              Hready Hfree Htimers) as (H1 & H2 & _ & H4).
  split; [exact Hready|]. split; [exact Hfree|]. split; [exact Htimers|].
  split; [exact H1|]. split; [exact H2|].
  split; [exact (H4 120 499)|exact (H4 120 501)].
Defined.

(** ** Re-entrancy of the handlers *)

Section Reentry.
Implicit Types (st : App) (g : Guard) (sdk : Sdk).





(** The handler itself reads nothing of the SDK state: the guard of connect
    is on its button. *)
Lemma handleConnect_ignores_sdk sdk sdk' st :
  handleConnect sdk st = handleConnect sdk' st.
Proof. reflexivity. Qed.
End Reentry.



(** Two clicks on the connect button: the first gets through and awaits
    [connect()]; once the SDK reports [isConnecting], the second changes
    nothing. *)
Example connect_clicked_twice :
  let idle := mkSdk None false true true in
  let first := click_connect idle (first_visit calm_world) in
  acquired first = true
  ∧ click_connect connecting_sdk first.1 = (first.1, Finished Returned).
Proof. split; reflexivity. Qed.

(** ** Errors of the awaited calls *)

(** C6. [handleDisconnect] awaits [disconnect()] outside any [try]: when the
    call is rejected, the handler's promise is rejected with the same value,
    no entry is logged and the state is as it was. *)
Theorem handleDisconnect_rejection_escapes
    (sdk : Sdk) (oracle : Oracle) (err : Thrown) (st : App) :
  oracle unit disconnect = Rejected err ->
  complete oracle (handleDisconnect sdk st).2 (handleDisconnect sdk st).1
  = (st, Threw err)
  ∧ logs (complete oracle (handleDisconnect sdk st).2
            (handleDisconnect sdk st).1).1 = logs st.
Proof.
  intros Hrejected. unfold handleDisconnect. cbn [fst snd].
  rewrite complete_suspended, Hrejected. cbn [fst snd].
  by rewrite complete_finished.
Qed.

Lemma handleDisconnect_rejection_escapes_witness :
  let oracle := rejecting (ErrorObj "Failed to fetch") in
  let st := first_visit calm_world in
  oracle unit disconnect = Rejected (ErrorObj "Failed to fetch")
  ∧ complete oracle (handleDisconnect connected_sdk st).2
      (handleDisconnect connected_sdk st).1
    = (st, Threw (ErrorObj "Failed to fetch")).
Proof.
  intros oracle st.
  assert (oracle unit disconnect = Rejected (ErrorObj "Failed to fetch"))
    as Hrejected by reflexivity.
  split; [exact Hrejected|].
  exact (proj1 (handleDisconnect_rejection_escapes connected_sdk oracle
                  (ErrorObj "Failed to fetch") st Hrejected)).
Defined.

(** The failing input of C6, evaluated. *)
Example disconnect_rejected :
  let r := complete (rejecting (ErrorObj "Failed to fetch"))
             (handleDisconnect connected_sdk (first_visit calm_world)).2
             (handleDisconnect connected_sdk (first_visit calm_world)).1 in
  r.2 = Threw (ErrorObj "Failed to fetch") ∧ logs r.1 = [].
Proof. split; reflexivity. Qed.

Section Caught.
Implicit Types (st s : App) (sdk : Sdk) (oracle : Oracle).

Ltac run_with_errors H :=
repeat first
  [ rewrite complete_suspended
  | rewrite finally_release_snd
  | rewrite complete_finished
  | progress cbn [fst snd]
  | progress unfold airdrop_catch, send_catch, subscribe_catch
  | progress cbn [err_message]
  | match goal with
    | |- context [match ?o ?X ?c with Fulfilled _ => _ | Rejected _ => _ end] =>
        let E := fresh "E" in
        destruct (o X c) as [?|?] eqn:E;
        [|destruct (H _ _ _ E) as [? ->]]
    | |- context [match ?r with Some _ => _ | None => _ end] => destruct r
    | |- context [if ?b then _ else _] => destruct b
    end ];
try reflexivity.

(** The other five handlers catch every rejection that carries an [Error]
  object: they return. *)
Lemma handlers_catch_error_objects planId sdk oracle st s :
rejects_with_errors oracle ->
(complete oracle (handleConnect sdk st).2 s).2 = Returned
∧ ∀ g, (complete oracle (guarded_handler g planId sdk st).2 s).2 = Returned.
Proof.
intros Herr. split.
- unfold handleConnect. run_with_errors Herr.
- intros g. destruct g; simpl.
  + unfold handleSignMessage. run_with_errors Herr.
  + unfold handleSendTransaction. run_with_errors Herr.
  + unfold handleSubscribe. run_with_errors Herr.
  + unfold handleAirdrop. run_with_errors Herr.
Qed.

(** A rejection with [undefined] is not caught by [handleConnect]: its
  [catch] block reads a property of the thrown value. *)
Example connect_rejected_with_undefined :
(complete (rejecting ThrownUndefined)
   (handleConnect connecting_sdk (first_visit calm_world)).2
   (handleConnect connecting_sdk (first_visit calm_world)).1).2
= Threw TypeError.
Proof. reflexivity. Qed.
End Caught.

(** The calm environment's clock does not run backwards, so the narration
    of a signature stays ordered by time stamp. *)
Example calm_narration_chronological :
  chronological
    (addLogs [mkLogCall pending "Requesting signature..." None;
              mkLogCall success "Message signed!" None;
              mkLogCall info "Sig: abc123..." None]
       (first_visit calm_world)).
Proof.
  apply addLogs_chronological.
  - intros i j Hij. simpl. lia.
  - split; constructor.
Qed.

(** After forty-two appends the log holds thirty entries and starts with
    the most recent one. *)
Example eviction_keeps_the_newest :
  let st := addLogs (replicate 41 (mkLogCall info "Disconnected" None)
                     ++ [mkLogCall success "Message signed!" None])
              (first_visit calm_world) in
  length (logs st) = 30
  ∧ (message <$> head (logs st)) = Some "Message signed!".
Proof. split; vm_compute; reflexivity. Qed.

(** * Further properties of the page *)

(** ** Storage round trips *)

Section Accepted.
Implicit Types (st : App) (key : string) (v : JsVal).

(** An accepted write: the store holds the new text, the trace has it. *)
Lemma saveToStorage_accepted key v st :
  has_window (browser st) = true ->
  setItem_throws_at (world st) (draws st) = false ->
  browser (saveToStorage key v st)
  = mkBrowser true (<[key := Serialized v]> (localStorage (browser st)))
      ((key, v) :: written (browser st))
      (timers (browser st)) (elapsed (browser st)).
Proof.
  intros Hw Hq. unfold saveToStorage, setItem. rewrite Hw, Hq. simpl.
  by rewrite Hw.
Qed.

Lemma loadFromStorage_browser key dflt st st' :
  browser st' = browser st ->
  loadFromStorage key dflt st' = loadFromStorage key dflt st.
Proof. unfold loadFromStorage, getItem. by intros ->. Qed.

Lemma loadFromStorage_lookup key dflt st st' :
  has_window (browser st') = has_window (browser st) ->
  localStorage (browser st') !! key = localStorage (browser st) !! key ->
  loadFromStorage key dflt st' = loadFromStorage key dflt st.
Proof. unfold loadFromStorage, getItem. by intros -> ->. Qed.

Lemma loadFromStorage_held key dflt v st :
  has_window (browser st) = true ->
  localStorage (browser st) !! key = Some (Serialized v) ->
  loadFromStorage key dflt st = v.
Proof. unfold loadFromStorage, getItem. by intros -> ->. Qed.
End Accepted.

(** X1. With a window and an accepted write, a load of the key just saved
    returns the saved value, and a load of any other key returns what it
    returned before. *)
Theorem save_then_load (key : string) (v dflt : JsVal) (st : App) :
  has_window (browser st) = true ->
  setItem_throws_at (world st) (draws st) = false ->
  loadFromStorage key dflt (saveToStorage key v st) = v
  ∧ ∀ key' dflt', key' ≠ key ->
      loadFromStorage key' dflt' (saveToStorage key v st)
      = loadFromStorage key' dflt' st.
Proof.
  intros Hw Hq.
  pose proof (saveToStorage_accepted key v st Hw Hq) as Hb. split.
  - apply loadFromStorage_held; rewrite Hb; [done|].
    apply lookup_insert_eq.
  - intros key' dflt' Hne. apply loadFromStorage_lookup; rewrite Hb.
    + by rewrite Hw.
    + by apply lookup_insert_ne.
Qed.

Lemma save_then_load_witness :
  let st := first_visit calm_world in
  has_window (browser st) = true
  ∧ setItem_throws_at (world st) (draws st) = false
  ∧ loadFromStorage STORAGE_KEYS.LAST_WALLET (VStr "")
      (saveToStorage STORAGE_KEYS.LAST_WALLET (VStr "7xKXtg2C") st)
    = VStr "7xKXtg2C".
Proof.
  intros st.
  assert (has_window (browser st) = true) as Hw by reflexivity.
  assert (setItem_throws_at (world st) (draws st) = false) as Hq by reflexivity.
  split; [exact Hw|]. split; [exact Hq|].
  exact (proj1 (save_then_load STORAGE_KEYS.LAST_WALLET (VStr "7xKXtg2C")
                  (VStr "") st Hw Hq)).
Defined.

(** ** Page load *)

Lemma mount_empty (w : World) :
  mount w 0 (mkBrowser true ∅ [] [] 0) = Some (first_visit w).
Proof. reflexivity. Qed.

Lemma reload_view
    (st : App) (loaded : list LogEntry) (stored : list StoredTransaction) :
  loadFromStorage STORAGE_KEYS.LOGS (VLogs []) st = VLogs loaded ->
  loadFromStorage STORAGE_KEYS.TRANSACTIONS (VTxs []) st = VTxs stored ->
  ∃ st', reload st = Some st'
    ∧ logs st' = filter notPending loaded
    ∧ transactions st' = stored.
Proof.
  intros Hlogs Htxs. unfold reload, mount.
  unfold loadFromStorage, getItem in *.
  cbn [browser has_window localStorage].
  rewrite Hlogs, Htxs. eexists. split; [reflexivity|]. by split.
Qed.

(** X2. A page load whose storage holds a list of log entries and a list of
    records starts with the stored log without its pending entries, so with
    no pending entry at all, with the stored history as it is, with every
    guard free and with no timer. *)
Theorem reload_drops_pending
    (st : App) (loaded : list LogEntry) (stored : list StoredTransaction) :
  loadFromStorage STORAGE_KEYS.LOGS (VLogs []) st = VLogs loaded ->
  loadFromStorage STORAGE_KEYS.TRANSACTIONS (VTxs []) st = VTxs stored ->
  ∃ st', reload st = Some st'
    ∧ logs st' = filter notPending loaded
    ∧ Forall notPending (logs st')
    ∧ transactions st' = stored
    ∧ (∀ g, locked g st' = false ∧ busy_of g st' = false)
    ∧ timers (browser st') = []
    ∧ localStorage (browser st') = localStorage (browser st).
Proof.
  intros Hlogs Htxs. unfold reload, mount.
  unfold loadFromStorage, getItem in *.
  cbn [browser has_window localStorage].
  rewrite Hlogs, Htxs. eexists. split; [reflexivity|].
  cbn [logs transactions setLogsTo setTransactionsTo browser timers localStorage].
  split; [done|]. split.
  { apply Forall_forall. intros e He.
    by apply list_elem_of_filter in He as [? _]. }
  split; [done|]. split; [|done].
  intros g. by destruct g.
Qed.

Lemma reload_drops_pending_witness :
  let left_over :=
    [mkLogEntry "a" 5 pending "Requesting signature..." None;
     mkLogEntry "b" 4 info "Wallet: 7xKXtg2C...AsU" None] in
  let st :=
    mkApp 0 [] [] None None
      (mkFlags true false false false) (mkRefs true false false false)
      (mkBrowser true {[STORAGE_KEYS.LOGS := Serialized (VLogs left_over)]}
         [] [mkTimer 700 GSign] 400)
      calm_world 9 in
  loadFromStorage STORAGE_KEYS.LOGS (VLogs []) st = VLogs left_over
  ∧ loadFromStorage STORAGE_KEYS.TRANSACTIONS (VTxs []) st = VTxs []
  ∧ ∃ st', reload st = Some st'
      ∧ logs st' = [mkLogEntry "b" 4 info "Wallet: 7xKXtg2C...AsU" None].
Proof.
  intros left_over st.
  assert (loadFromStorage STORAGE_KEYS.LOGS (VLogs []) st = VLogs left_over)
    as Hlogs by reflexivity.
  assert (loadFromStorage STORAGE_KEYS.TRANSACTIONS (VTxs []) st = VTxs [])
    as Htxs by reflexivity.
  split; [exact Hlogs|]. split; [exact Htxs|].
  destruct (reload_drops_pending st left_over [] Hlogs Htxs)
    as (st' & Hreload & Hl & _).
  exists st'. split; [exact Hreload|]. rewrite Hl. reflexivity.
Defined.

(** ** Memory and storage in step *)

Section InStep.
Implicit Types (st : App) (op : LedgerOp).

(** The window and the environment, which no ledger operation changes. *)
Lemma surroundings_saveToStorage key v st :
  has_window (browser (saveToStorage key v st)) = has_window (browser st)
  ∧ world (saveToStorage key v st) = world st.
Proof.
  destruct (saveToStorage_frame key v st)
    as (_ & _ & _ & _ & _ & _ & _ & Hw & _ & _ & Hh). by split.
Qed.

Lemma surroundings_addLog ty m d st :
  has_window (browser (addLog ty m d st)) = has_window (browser st)
  ∧ world (addLog ty m d st) = world st.
Proof.
  unfold addLog, addLog_updater, newLogEntry, randomUUID, newDate.
  cbn [fst snd].
  match goal with
  | |- has_window (browser (setLogsTo ?l ?s)) = _ ∧ _ =>
      change (has_window (browser s) = has_window (browser st)
              ∧ world s = world st)
  end.
  match goal with
  | |- context [saveToStorage ?k ?v ?s] =>
      destruct (surroundings_saveToStorage k v s) as [-> ->]
  end.
  by split.
Qed.

Lemma surroundings_clearPendingLogs st :
  has_window (browser (clearPendingLogs st)) = has_window (browser st)
  ∧ world (clearPendingLogs st) = world st.
Proof.
  unfold clearPendingLogs. destruct (Nat.eqb _ 0); [done|]. cbv zeta.
  match goal with
  | |- has_window (browser (setLogsTo ?l ?s)) = _ ∧ _ =>
      change (has_window (browser s) = has_window (browser st)
              ∧ world s = world st)
  end.
  apply surroundings_saveToStorage.
Qed.

Lemma surroundings_addTransaction tx st :
  has_window (browser (addTransaction tx st)) = has_window (browser st)
  ∧ world (addTransaction tx st) = world st.
Proof.
  unfold addTransaction, newDate. cbn [fst snd].
  match goal with
  | |- has_window (browser (setTransactionsTo ?l ?s)) = _ ∧ _ =>
      change (has_window (browser s) = has_window (browser st)
              ∧ world s = world st)
  end.
  match goal with
  | |- context [saveToStorage ?k ?v ?s] =>
      destruct (surroundings_saveToStorage k v s) as [-> ->]
  end.
  by split.
Qed.

Lemma writes_accepted_surroundings st st' :
  has_window (browser st') = has_window (browser st) ->
  world st' = world st ->
  writes_accepted st -> writes_accepted st'.
Proof. unfold writes_accepted. by intros -> ->. Qed.

Lemma writes_accepted_apply_op st op :
  writes_accepted st -> writes_accepted (apply_op st op).
Proof.
  destruct op; simpl.
  - apply writes_accepted_surroundings; apply surroundings_addLog.
  - apply writes_accepted_surroundings; apply surroundings_clearPendingLogs.
  - done.
  - apply writes_accepted_surroundings; apply surroundings_addTransaction.
  - done.
  - apply writes_accepted_surroundings; apply surroundings_saveToStorage.
Qed.

(** The text under [key] after an accepted save of [key']. *)
Lemma lookup_saveToStorage key key' v st :
  writes_accepted st ->
  localStorage (browser (saveToStorage key' v st)) !! key
  = if decide (key' = key) then Some (Serialized v)
    else localStorage (browser st) !! key.
Proof.
  intros [Hw Hq]. rewrite (saveToStorage_accepted key' v st Hw (Hq _)).
  cbn [localStorage]. apply lookup_insert.
Qed.

Lemma addLog_in_step ty m d st :
  writes_accepted st ->
  log_in_step (addLog ty m d st)
  ∧ localStorage (browser (addLog ty m d st)) !! STORAGE_KEYS.TRANSACTIONS
    = localStorage (browser st) !! STORAGE_KEYS.TRANSACTIONS.
Proof.
  intros Hacc.
  assert (writes_accepted (drawn (drawn st))) as Hacc2 by exact Hacc.
  unfold log_in_step.
  pose proof (surroundings_addLog ty m d st) as [Hw _].
  unfold addLog, addLog_updater, newLogEntry, randomUUID, newDate in *.
  cbn [fst snd] in *.
  match goal with
  | |- context [setLogsTo ?l (saveToStorage ?k ?v ?s)] =>
      set (newLogs := l) in *;
      pose proof (lookup_saveToStorage STORAGE_KEYS.LOGS k v s Hacc2) as Hl;
      pose proof (lookup_saveToStorage STORAGE_KEYS.TRANSACTIONS k v s Hacc2) as Ht
  end.
  split.
  - apply loadFromStorage_held.
    + rewrite Hw. apply Hacc.
    + exact Hl.
  - exact Ht.
Qed.
End InStep.

Section InStepOps.
Implicit Types (st : App) (op : LedgerOp).

Lemma filter_notPending_idemp (l : list LogEntry) :
  filter notPending (filter notPending l) = filter notPending l.
Proof.
  induction l as [|e l IH]; [done|].
  rewrite filter_cons. destruct (decide (notPending e)); [|done].
  by rewrite filter_cons_True, IH.
Qed.

Lemma clearPendingLogs_in_step st :
  writes_accepted st -> log_in_step st ->
  log_in_step (clearPendingLogs st)
  ∧ localStorage (browser (clearPendingLogs st)) !! STORAGE_KEYS.TRANSACTIONS
    = localStorage (browser st) !! STORAGE_KEYS.TRANSACTIONS.
Proof.
  intros Hacc Hstep.
  pose proof (surroundings_clearPendingLogs st) as [Hw _].
  unfold log_in_step, clearPendingLogs in *.
  destruct (Nat.eqb _ 0); [done|]. cbv zeta in *.
  match goal with
  | |- context [setLogsTo ?l (saveToStorage ?k ?v ?s)] =>
      pose proof (lookup_saveToStorage STORAGE_KEYS.LOGS k v s Hacc) as Hl;
      pose proof (lookup_saveToStorage STORAGE_KEYS.TRANSACTIONS k v s Hacc) as Ht
  end.
  split; [|exact Ht].
  apply loadFromStorage_held.
  - rewrite Hw. apply Hacc.
  - cbn [logs setLogsTo]. rewrite filter_notPending_idemp. exact Hl.
Qed.

Lemma addTransaction_in_step tx st :
  writes_accepted st ->
  history_in_step (addTransaction tx st)
  ∧ localStorage (browser (addTransaction tx st)) !! STORAGE_KEYS.LOGS
    = localStorage (browser st) !! STORAGE_KEYS.LOGS
  ∧ logs (addTransaction tx st) = logs st.
Proof.
  intros Hacc.
  assert (writes_accepted (drawn st)) as Hacc1 by exact Hacc.
  pose proof (surroundings_addTransaction tx st) as [Hw _].
  unfold history_in_step, addTransaction, newDate in *. cbn [fst snd] in *.
  match goal with
  | |- context [setTransactionsTo ?l (saveToStorage ?k ?v ?s)] =>
      pose proof (lookup_saveToStorage STORAGE_KEYS.LOGS k v s Hacc1) as Hl;
      pose proof (lookup_saveToStorage STORAGE_KEYS.TRANSACTIONS k v s Hacc1) as Ht;
      pose proof (saveToStorage_logs k v s) as Hlogs
  end.
  split; [|split].
  - apply loadFromStorage_held; [rewrite Hw; apply Hacc|exact Ht].
  - exact Hl.
  - exact Hlogs.
Qed.

Lemma log_in_step_carried st st' :
  has_window (browser st') = has_window (browser st) ->
  localStorage (browser st') !! STORAGE_KEYS.LOGS
  = localStorage (browser st) !! STORAGE_KEYS.LOGS ->
  logs st' = logs st ->
  log_in_step st -> log_in_step st'.
Proof.
  unfold log_in_step. intros Hw Hl -> <-.
  by apply loadFromStorage_lookup.
Qed.

Lemma history_in_step_carried st st' :
  has_window (browser st') = has_window (browser st) ->
  localStorage (browser st') !! STORAGE_KEYS.TRANSACTIONS
  = localStorage (browser st) !! STORAGE_KEYS.TRANSACTIONS ->
  transactions st' = transactions st ->
  history_in_step st -> history_in_step st'.
Proof.
  unfold history_in_step. intros Hw Hl -> <-.
  by apply loadFromStorage_lookup.
Qed.

Lemma transactions_addLog ty m d st :
  transactions (addLog ty m d st) = transactions st.
Proof.
  unfold addLog, addLog_updater, newLogEntry, randomUUID, newDate.
  cbn [fst snd transactions setLogsTo]. by rewrite saveToStorage_transactions.
Qed.

Lemma transactions_clearPendingLogs st :
  transactions (clearPendingLogs st) = transactions st.
Proof.
  unfold clearPendingLogs. destruct (Nat.eqb _ 0); [done|].
  cbn [transactions setLogsTo]. by rewrite saveToStorage_transactions.
Qed.

Lemma apply_op_history_in_step st op :
  writes_accepted st -> history_in_step st -> history_in_step (apply_op st op).
Proof.
  intros Hacc Hstep. destruct op; simpl.
  - eapply history_in_step_carried; [..|exact Hstep].
    + apply surroundings_addLog.
    + by apply addLog_in_step.
    + apply transactions_addLog.
  - eapply history_in_step_carried; [..|exact Hstep].
    + apply surroundings_clearPendingLogs.
    + unfold clearPendingLogs. destruct (Nat.eqb _ 0); [done|]. cbv zeta.
      cbn [browser setLogsTo].
      by rewrite (lookup_saveToStorage STORAGE_KEYS.TRANSACTIONS _ _ _ Hacc).
    + apply transactions_clearPendingLogs.
  - exact Hstep.
  - by apply addTransaction_in_step.
  - unfold history_in_step, clearHistory, loadFromStorage, getItem. simpl.
    rewrite lookup_delete_eq. by destruct (has_window _).
  - eapply history_in_step_carried; [..|exact Hstep].
    + apply surroundings_saveToStorage.
    + unfold persistWallet.
      by rewrite (lookup_saveToStorage STORAGE_KEYS.TRANSACTIONS _ _ _ Hacc).
    + apply saveToStorage_transactions.
Qed.

Lemma apply_op_log_in_step st op :
  writes_accepted st -> not_clearLogs op ->
  log_in_step st -> log_in_step (apply_op st op).
Proof.
  intros Hacc Hop Hstep. destruct op; simpl; try done.
  - by apply addLog_in_step.
  - by apply clearPendingLogs_in_step.
  - eapply log_in_step_carried; [..|exact Hstep].
    + apply surroundings_addTransaction.
    + by apply addTransaction_in_step.
    + by apply addTransaction_in_step.
  - eapply log_in_step_carried; [..|exact Hstep]; [done| |done].
    simpl. by rewrite lookup_delete_ne.
  - eapply log_in_step_carried; [..|exact Hstep].
    + apply surroundings_saveToStorage.
    + unfold persistWallet.
      by rewrite (lookup_saveToStorage STORAGE_KEYS.LOGS _ _ _ Hacc).
    + apply saveToStorage_logs.
Qed.
End InStepOps.

(** X3. With a window and a storage that accepts every write, memory and
    storage stay in step over every run of ledger operations that does not
    press the log's Clear button: a reload after the run shows the log as it
    was without its pending entries and the history as it was.  The history
    alone stays in step over every run, the Clear button included. *)
Theorem reload_shows_what_was_there (ops : list LedgerOp) (st : App) :
  writes_accepted st ->
  history_in_step st ->
  history_in_step (apply_ops ops st)
  ∧ (log_in_step st -> Forall not_clearLogs ops ->
     ∃ st', reload (apply_ops ops st) = Some st'
       ∧ logs st' = filter notPending (logs (apply_ops ops st))
       ∧ transactions st' = transactions (apply_ops ops st)).
Proof.
  intros Hacc Hhist.
  assert (∀ ops st, writes_accepted st -> history_in_step st ->
            history_in_step (apply_ops ops st)) as Hrun_hist.
  { clear. intros ops. induction ops as [|op ops IH]; intros st Hacc Hst; [done|].
    simpl. apply IH.
    - by apply writes_accepted_apply_op.
    - by apply apply_op_history_in_step. }
  assert (∀ ops st, writes_accepted st -> log_in_step st ->
            Forall not_clearLogs ops -> log_in_step (apply_ops ops st))
    as Hrun_log.
  { clear. intros ops. induction ops as [|op ops IH]; intros st Hacc Hst Hops;
      [done|].
    apply Forall_cons in Hops as [Hop Hops]. simpl. apply IH; [| |done].
    - by apply writes_accepted_apply_op.
    - by apply apply_op_log_in_step. }
  split; [by apply Hrun_hist|].
  intros Hlog Hops.
  destruct (reload_view (apply_ops ops st) _ _
              (Hrun_log ops st Hacc Hlog Hops) (Hrun_hist ops st Hacc Hhist))
    as (st' & Hreload & Hl & Ht).
  exists st'. rewrite filter_notPending_idemp in Hl. by repeat split.
Qed.

Lemma reload_shows_what_was_there_witness :
  let st := first_visit calm_world in
  let ops := [OpAddLog (mkLogCall pending "Sending gasless transaction..." None);
              OpAddLog (mkLogCall success "Transaction confirmed!" None);
              OpAddTransaction (mkTxInput "5xYz" transfer tx_success None);
              OpClearPending; OpClearLogs; OpClearHistory] in
  let kept := [OpAddLog (mkLogCall pending "Sending gasless transaction..." None);
               OpAddLog (mkLogCall success "Transaction confirmed!" None);
               OpAddTransaction (mkTxInput "5xYz" transfer tx_success None);
               OpClearHistory] in
  writes_accepted st ∧ history_in_step st
  ∧ history_in_step (apply_ops ops st)
  ∧ log_in_step st ∧ Forall not_clearLogs kept
  ∧ ∃ st', reload (apply_ops kept st) = Some st'
      ∧ logs st' = filter notPending (logs (apply_ops kept st))
      ∧ transactions st' = transactions (apply_ops kept st).
Proof.
  intros st ops kept.
  assert (writes_accepted st) as Hacc by (split; [reflexivity|intros n; reflexivity]).
  assert (history_in_step st) as Hhist by reflexivity.
  assert (log_in_step st) as Hlog by reflexivity.
  assert (Forall not_clearLogs kept) as Hkept by (repeat constructor).
  split; [exact Hacc|]. split; [exact Hhist|].
  split; [exact (proj1 (reload_shows_what_was_there ops st Hacc Hhist))|].
  split; [exact Hlog|]. split; [exact Hkept|].
  exact (proj2 (reload_shows_what_was_there kept st Hacc Hhist) Hlog Hkept).
Defined.

(** The run of C4's failing input is the one kind of run that leaves memory
    and storage apart: Clear, then reload. *)
Example clear_breaks_the_step :
  let st := apply_ops [OpAddLog (mkLogCall info "Disconnected" None); OpClearLogs]
              (first_visit calm_world) in
  logs st = [] ∧ (logs <$> reload st) = Some [mkLogEntry "0" 1 info "Disconnected" None].
Proof. split; vm_compute; reflexivity. Qed.

Section ConnectStorage.
Implicit Types (st : App) (sdk : Sdk).

Lemma addLog_stored ty m d st :
  writes_accepted st ->
  has_window (browser (addLog ty m d st)) = true
  ∧ localStorage (browser (addLog ty m d st)) !! STORAGE_KEYS.LOGS
    = Some (Serialized (VLogs (filter notPending (logs (addLog ty m d st))))).
Proof.
  intros Hacc.
  assert (writes_accepted (drawn (drawn st))) as Hacc2 by exact Hacc.
  pose proof (surroundings_addLog ty m d st) as [Hw _].
  split; [rewrite Hw; apply Hacc|]. clear Hw.
  unfold addLog, addLog_updater, newLogEntry, randomUUID, newDate.
  cbn [fst snd].
  match goal with
  | |- context [setLogsTo ?l (saveToStorage ?k ?v ?s)] =>
      exact (lookup_saveToStorage STORAGE_KEYS.LOGS k v s Hacc2)
  end.
Qed.
End ConnectStorage.

(** X4. With a window and accepted writes, starting a connect also wipes
    the persisted log: when [handleConnect] reaches its [await], the log key
    holds the empty list, whatever it held before, so a reload at that
    moment shows an empty log. *)
Theorem handleConnect_wipes_persisted_log (sdk : Sdk) (st : App) :
  writes_accepted st ->
  localStorage (browser (handleConnect sdk st).1) !! STORAGE_KEYS.LOGS
  = Some (Serialized (VLogs []))
  ∧ ∀ dflt, loadFromStorage STORAGE_KEYS.LOGS dflt (handleConnect sdk st).1
            = VLogs [].
Proof.
  intros Hacc.
  assert (writes_accepted (setLogsTo [] st)) as Hacc' by exact Hacc.
  destruct (addLog_stored pending "Opening passkey authentication..." None
              (setLogsTo [] st) Hacc') as [Hw Hl].
  rewrite logs_addLog in Hl.
  assert (localStorage (browser (handleConnect sdk st).1) !! STORAGE_KEYS.LOGS
          = Some (Serialized (VLogs []))) as Hwiped by exact Hl.
  split; [exact Hwiped|].
  intros dflt. by apply loadFromStorage_held.
Qed.

Lemma handleConnect_wipes_persisted_log_witness :
  let st := addLog info "Disconnected" None
              (addLog success "Message signed!" None (first_visit calm_world)) in
  writes_accepted st
  ∧ loadFromStorage STORAGE_KEYS.LOGS (VLogs []) st
    = VLogs (logs st)
  ∧ loadFromStorage STORAGE_KEYS.LOGS (VLogs [])
      (handleConnect connecting_sdk st).1 = VLogs [].
Proof.
  intros st.
  assert (writes_accepted st) as Hacc
    by (split; [reflexivity|intros n; reflexivity]).
  split; [exact Hacc|]. split; [vm_compute; reflexivity|].
  exact (proj2 (handleConnect_wipes_persisted_log connecting_sdk st Hacc) (VLogs [])).
Defined.

(** ** What a finished handler leaves behind *)

(** Steps through a handler, splitting on every settlement and on every
    test, down to the last state. *)
Ltac step_handler :=
  repeat first
    [ rewrite complete_suspended
    | rewrite finally_release_snd
    | rewrite complete_finished
    | progress cbn [fst snd]
    | progress unfold airdrop_catch, send_catch, subscribe_catch
    | progress cbn [err_message]
    | match goal with
      | |- context [match ?o ?X ?c with Fulfilled _ => _ | Rejected _ => _ end] =>
          destruct (o X c) as [?|[?|?|]]
      | |- context [match ?r with Some _ => _ | None => _ end] => destruct r
      | |- context [if ?b then _ else _] => destruct b
      end ].

Section Completion.
Implicit Types (st s : App) (g : Guard) (sdk : Sdk) (oracle : Oracle).

Lemma logs_clearPendingLogs st :
  logs (clearPendingLogs st) = filter notPending (logs st).
Proof.
  unfold clearPendingLogs.
  destruct (Nat.eqb_spec (length (filter (λ log, type log = pending) (logs st))) 0)
    as [Hnone|_].
  - symmetry. by apply filter_notPending_id.
  - reflexivity.
Qed.

Lemma logs_finally_release g c st :
  logs (finally_release g c st).1 = filter notPending (logs st).
Proof. unfold finally_release. cbn [fst]. apply logs_clearPendingLogs. Qed.

Lemma filter_notPending_Forall (l : list LogEntry) :
  Forall notPending (filter notPending l).
Proof.
  apply Forall_forall. intros e He. by apply list_elem_of_filter in He as [? _].
Qed.

Lemma guarded_completion_no_pending g planId sdk oracle st s :
  acquired (guarded_handler g planId sdk st) = true ->
  Forall notPending (logs (complete oracle (guarded_handler g planId sdk st).2 s).1).
Proof.
  destruct g; simpl.
  - unfold handleSignMessage.
    destruct (_ || _); [done|]. intros _. cbn [snd]. step_handler;
      rewrite logs_finally_release; apply filter_notPending_Forall.
  - unfold handleSendTransaction.
    destruct (smartWalletPubkey sdk); [|done].
    destruct (_ || _); [done|]. intros _. cbn [snd]. step_handler;
      rewrite logs_finally_release; apply filter_notPending_Forall.
  - unfold handleSubscribe.
    destruct (smartWalletPubkey sdk); [|done].
    destruct (_ || _); [done|].
    destruct (find_plan planId); [|done]. intros _. cbn [snd]. step_handler;
      rewrite logs_finally_release; apply filter_notPending_Forall.
  - unfold handleAirdrop.
    destruct (smartWalletPubkey sdk); [|done].
    destruct (isAirdropRef (refs st)); [done|]. intros _. cbn [snd].
    step_handler; rewrite logs_finally_release; apply filter_notPending_Forall.
Qed.

Lemma connect_completion_no_pending sdk oracle st s :
  Forall notPending (logs (complete oracle (handleConnect sdk st).2 s).1).
Proof.
  unfold handleConnect. cbn [snd]. step_handler;
    rewrite logs_clearPendingLogs; apply filter_notPending_Forall.
Qed.
End Completion.

(** X5. However the awaited calls settle, a connect and each of the four
    guarded operations that got past its guard end with no pending entry in
    the in-memory log: their [finally] block removes every pending entry, the
    ones narrating other operations still in flight included. *)
Theorem completion_leaves_no_pending
    (g : Guard) (planId : string) (sdk : Sdk) (oracle : Oracle) (st s : App) :
  acquired (guarded_handler g planId sdk st) = true ->
  Forall notPending
    (logs (complete oracle (guarded_handler g planId sdk st).2 s).1)
  ∧ Forall notPending (logs (complete oracle (handleConnect sdk st).2 s).1).
Proof.
  intros Hacq. split.
  - by apply guarded_completion_no_pending.
  - apply connect_completion_no_pending.
Qed.

Lemma completion_leaves_no_pending_witness :
  let sign := guarded_handler GSign "pro" connected_sdk (first_visit calm_world) in
  let drop := guarded_handler GAirdrop "pro" connected_sdk sign.1 in
  acquired drop = true
  ∧ message <$> logs drop.1
    = ["Requesting 1 SOL airdrop from devnet..."; "Requesting signature..."]
  ∧ Forall notPending
      (logs (complete (rejecting (ErrorObj "429 Too Many Requests")) drop.2 drop.1).1).
Proof.
  intros sign drop.
  assert (acquired drop = true) as Hacq by (vm_compute; reflexivity).
  split; [exact Hacq|]. split.
  - vm_compute. reflexivity.
  - exact (proj1 (completion_leaves_no_pending GAirdrop "pro" connected_sdk
                    (rejecting (ErrorObj "429 Too Many Requests")) sign.1 drop.1 Hacq)).
Defined.

(** ** Handlers that leave the history alone *)

Section HistoryFrames.
Implicit Types (st s : App) (sdk : Sdk) (oracle : Oracle).

Lemma history_view_saveToStorage key v st :
  key ≠ STORAGE_KEYS.TRANSACTIONS ->
  history_view (saveToStorage key v st) = history_view st.
Proof.
  intros Hne. unfold history_view. rewrite saveToStorage_transactions.
  destruct (saveToStorage_browser key v st) as [-> | ->]; [done|].
  cbn [localStorage]. by rewrite lookup_insert_ne.
Qed.

Lemma history_view_addLog ty m d st :
  history_view (addLog ty m d st) = history_view st.
Proof.
  unfold addLog, addLog_updater, newLogEntry, randomUUID, newDate.
  cbn [fst snd].
  match goal with
  | |- history_view (setLogsTo ?l ?s) = _ =>
      change (history_view s = history_view st)
  end.
  by rewrite history_view_saveToStorage.
Qed.

Lemma history_view_clearPendingLogs st :
  history_view (clearPendingLogs st) = history_view st.
Proof.
  unfold clearPendingLogs. destruct (Nat.eqb _ 0); [done|]. cbv zeta.
  match goal with
  | |- history_view (setLogsTo ?l ?s) = _ =>
      change (history_view s = history_view st)
  end.
  by rewrite history_view_saveToStorage.
Qed.

Lemma history_view_finally g c st :
  history_view (finally_release g c st).1 = history_view st.
Proof.
  unfold finally_release. cbn [fst].
  change (history_view (clearPendingLogs st) = history_view st).
  apply history_view_clearPendingLogs.
Qed.

Lemma history_view_lock g st : history_view (lock g st) = history_view st.
Proof. by destruct g. Qed.

Lemma history_view_setLastSignature v st :
  history_view (setLastSignature v st) = history_view st.
Proof. reflexivity. Qed.

Lemma history_view_setBalance v st :
  history_view (setBalance v st) = history_view st.
Proof. reflexivity. Qed.

Lemma history_view_setLogsTo v st :
  history_view (setLogsTo v st) = history_view st.
Proof. reflexivity. Qed.

Lemma history_view_setSelectedPlan v st :
  history_view (setSelectedPlan v st) = history_view st.
Proof. reflexivity. Qed.
End HistoryFrames.

Create Rewrite HintDb history.
#[local] Hint Rewrite history_view_addLog history_view_clearPendingLogs
  history_view_finally history_view_lock history_view_setLastSignature
  history_view_setBalance history_view_setLogsTo
  history_view_setSelectedPlan : history.

(** X6. Signing a message, connecting and disconnecting never touch the
    transaction history: however the awaited call settles, the in-memory
    history and the text under the transactions key are after the handler
    what they were before it, at the [await] and at the end. *)
Theorem narration_only_handlers_keep_history
    (sdk : Sdk) (oracle : Oracle) (st s : App) :
  (history_view (handleSignMessage sdk st).1 = history_view st
   ∧ history_view (complete oracle (handleSignMessage sdk st).2 s).1
     = history_view s)
  ∧ (history_view (handleConnect sdk st).1 = history_view st
     ∧ history_view (complete oracle (handleConnect sdk st).2 s).1
       = history_view s)
  ∧ (history_view (handleDisconnect sdk st).1 = history_view st
     ∧ history_view (complete oracle (handleDisconnect sdk st).2 s).1
       = history_view s).
Proof.
  split; [|split]; split.
  - unfold handleSignMessage. destruct (_ || _); [done|]. cbn [fst].
    by autorewrite with history.
  - unfold handleSignMessage. destruct (_ || _); [done|]. cbn [snd].
    step_handler; by autorewrite with history.
  - unfold handleConnect. cbn [fst]. by autorewrite with history.
  - unfold handleConnect. cbn [snd]. step_handler; by autorewrite with history.
  - reflexivity.
  - unfold handleDisconnect. cbn [snd]. step_handler;
      by autorewrite with history.
Qed.

(** ** What a transfer leaves in the history *)

Section Records.
Implicit Types (st s : App) (sdk : Sdk) (oracle : Oracle).

Lemma transactions_finally g c st :
  transactions (finally_release g c st).1 = transactions st.
Proof.
  unfold finally_release. cbn [fst].
  change (transactions (clearPendingLogs st) = transactions st).
  apply transactions_clearPendingLogs.
Qed.

Lemma transactions_setBalance v st :
  transactions (setBalance v st) = transactions st.
Proof. reflexivity. Qed.

Lemma transactions_setLastSignature v st :
  transactions (setLastSignature v st) = transactions st.
Proof. reflexivity. Qed.

Lemma shown_addTransaction tx st :
  shown <$> transactions (addTransaction tx st)
  = take 50 ((in_status tx, in_signature tx, in_details tx)
             :: (shown <$> transactions st)).
Proof. by rewrite transactions_addTransaction, fmap_take. Qed.
End Records.

Create Rewrite HintDb txs.
#[local] Hint Rewrite transactions_finally transactions_setBalance
  transactions_setLastSignature transactions_addLog shown_addTransaction : txs.

(** X7. What a transfer that got past its guard leaves in the history, by
    the way its awaited calls settle.  Rejected send with a readable
    message: one failed record with an empty signature.  Accepted send and
    balance read: one success record.  Accepted send but rejected balance
    read: the success record and, in front of it, a failed record for the
    same transfer.  A rejection with [undefined] makes the [catch] block
    throw before it records anything. *)
Theorem transfer_records
    (sdk : Sdk) (oracle : Oracle) (st s : App) (pubkey : string) :
  smartWalletPubkey sdk = Some pubkey ->
  acquired (handleSendTransaction sdk st) = true ->
  let final := (complete oracle (handleSendTransaction sdk st).2 s).1 in
  let before := shown <$> transactions s in
  let sent sig := (tx_success, sig, Some "Self-transfer 100 lamports") in
  match oracle _ (signAndSendTransaction [mkInstruction pubkey pubkey 100]
                    (mkTransactionOptions None "devnet")) with
  | Rejected err =>
      match err_message err with
      | Some m => shown <$> transactions final = take 50 ((tx_failed, "", m) :: before)
      | None => shown <$> transactions final = before
      end
  | Fulfilled sig =>
      match oracle _ (getBalance pubkey) with
      | Fulfilled _ =>
          shown <$> transactions final = take 50 (sent sig :: before)
      | Rejected err =>
          match err_message err with
          | Some m =>
              shown <$> transactions final
              = take 50 ((tx_failed, "", m) :: take 50 (sent sig :: before))
          | None =>
              shown <$> transactions final = take 50 (sent sig :: before)
          end
      end
  end.
Proof.
  intros Hpk. unfold handleSendTransaction. rewrite Hpk.
  destruct (_ || _); [done|]. intros _. cbn [snd].
  step_handler; by autorewrite with txs.
Qed.

Lemma transfer_records_witness :
  let st := first_visit calm_world in
  let oracle : Oracle :=
    λ X call,
      match call in Ext X return Settled X with
      | getBalance _ => Rejected (ErrorObj "Failed to fetch")
      | other => fulfilling _ other
      end in
  smartWalletPubkey connected_sdk
  = Some "7xKXtg2CW87d97TXJSDpbD5jBkheTqA83TZRuJosgAsU"
  ∧ acquired (handleSendTransaction connected_sdk st) = true
  ∧ shown <$> transactions
      (complete oracle (handleSendTransaction connected_sdk st).2
         (handleSendTransaction connected_sdk st).1).1
    = [(tx_failed, "", Some "Failed to fetch");
       (tx_success, "5xYzTransferSignature", Some "Self-transfer 100 lamports")].
Proof.
  intros st oracle.
  assert (smartWalletPubkey connected_sdk
          = Some "7xKXtg2CW87d97TXJSDpbD5jBkheTqA83TZRuJosgAsU") as Hpk
    by reflexivity.
  assert (acquired (handleSendTransaction connected_sdk st) = true) as Hacq
    by reflexivity.
  split; [exact Hpk|]. split; [exact Hacq|].
  exact (transfer_records connected_sdk oracle st
           (handleSendTransaction connected_sdk st).1 _ Hpk Hacq).
Defined.

(** ** How a refused airdrop is told *)

Section AirdropNarration.
Implicit Types (st s : App) (sdk : Sdk) (oracle : Oracle).

Lemma logs_addTransaction tx st : logs (addTransaction tx st) = logs st.
Proof.
  unfold addTransaction, newDate. cbn [fst snd logs setTransactionsTo].
  by rewrite saveToStorage_logs.
Qed.

(** After an entry that is not pending, the [finally] block leaves that
    entry at the head of a log without pending entries. *)
Lemma settled_entry_heads_log g c ty m d st :
  ty ≠ pending ->
  ∃ e rest,
    logs (finally_release g c (addLog ty m d st)).1 = e :: rest
    ∧ type e = ty ∧ message e = m ∧ details e = d
    ∧ Forall notPending rest.
Proof.
  intros Hty. rewrite logs_finally_release, logs_addLog.
  exists (newLogEntry ty m d st).1, (filter notPending (take 29 (baseLogs ty (logs st)))).
  split; [|repeat split; apply filter_notPending_Forall].
  cbn [take]. by rewrite filter_cons_True.
Qed.
End AirdropNarration.

(** X8. An airdrop request rejected with an [Error]: the log then starts
    with one error entry, which is the rate-limit notice without details
    when the message contains 429 or limit and "Airdrop failed" with the
    message as details otherwise; no pending entry is left; and the history
    gains one failed record with an empty signature and the message. *)
Theorem refused_airdrop_is_told
    (sdk : Sdk) (oracle : Oracle) (st s : App) (pubkey m : string) :
  smartWalletPubkey sdk = Some pubkey ->
  acquired (handleAirdrop sdk st) = true ->
  oracle _ (requestAirdrop pubkey LAMPORTS_PER_SOL) = Rejected (ErrorObj m) ->
  let final := (complete oracle (handleAirdrop sdk st).2 s).1 in
  (∃ e rest,
     logs final = e :: rest
     ∧ type e = error
     ∧ (message e, details e)
       = (if includes "429" m || includes "limit" m
          then ("Rate limited! Use faucet.solana.com instead", None)
          else ("Airdrop failed", Some m))
     ∧ Forall notPending rest)
  ∧ shown <$> transactions final
    = take 50 ((tx_failed, "", Some m) :: (shown <$> transactions s)).
Proof.
  intros Hpk. unfold handleAirdrop. rewrite Hpk.
  destruct (isAirdropRef (refs st)); [done|]. intros _ Hrejected.
  cbn [snd]. rewrite complete_suspended, Hrejected.
  unfold airdrop_catch. cbn [err_message fst snd].
  rewrite finally_release_snd, complete_finished. cbn [fst].
  split.
  - rewrite logs_finally_release, logs_addTransaction.
    destruct (includes "429" m || includes "limit" m).
    + destruct (settled_entry_heads_log GAirdrop Returned error
                  "Rate limited! Use faucet.solana.com instead" None s)
        as (e & rest & Hl & Hty & Hm & Hd & Hrest); [done|].
      rewrite logs_finally_release in Hl.
      exists e, rest. by rewrite Hl, Hty, Hm, Hd.
    + destruct (settled_entry_heads_log GAirdrop Returned error
                  "Airdrop failed" (Some m) s)
        as (e & rest & Hl & Hty & Hm & Hd & Hrest); [done|].
      rewrite logs_finally_release in Hl.
      exists e, rest. by rewrite Hl, Hty, Hm, Hd.
  - autorewrite with txs. by destruct (_ || _); autorewrite with txs.
Qed.

Lemma refused_airdrop_is_told_witness :
  let st := first_visit calm_world in
  let oracle := rejecting (ErrorObj "429 Too Many Requests") in
  let final := (complete oracle (handleAirdrop connected_sdk st).2
                  (handleAirdrop connected_sdk st).1).1 in
  smartWalletPubkey connected_sdk
  = Some "7xKXtg2CW87d97TXJSDpbD5jBkheTqA83TZRuJosgAsU"
  ∧ acquired (handleAirdrop connected_sdk st) = true
  ∧ oracle _ (requestAirdrop "7xKXtg2CW87d97TXJSDpbD5jBkheTqA83TZRuJosgAsU"
                LAMPORTS_PER_SOL)
    = Rejected (ErrorObj "429 Too Many Requests")
  ∧ shown <$> transactions final
    = [(tx_failed, "", Some "429 Too Many Requests")].
Proof.
  intros st oracle final.
  assert (smartWalletPubkey connected_sdk
          = Some "7xKXtg2CW87d97TXJSDpbD5jBkheTqA83TZRuJosgAsU") as Hpk
    by reflexivity.
  assert (acquired (handleAirdrop connected_sdk st) = true) as Hacq
    by reflexivity.
  assert (oracle _ (requestAirdrop "7xKXtg2CW87d97TXJSDpbD5jBkheTqA83TZRuJosgAsU"
                      LAMPORTS_PER_SOL)
          = Rejected (ErrorObj "429 Too Many Requests")) as Hrej by reflexivity.
  split; [exact Hpk|]. split; [exact Hacq|]. split; [exact Hrej|].
  exact (proj2 (refused_airdrop_is_told connected_sdk oracle st
                  (handleAirdrop connected_sdk st).1 _ _ Hpk Hacq Hrej)).
Defined.

(** The same refusal as the log shows it. *)
Example rate_limited_airdrop_log :
  let st := first_visit calm_world in
  let final := (complete (rejecting (ErrorObj "429 Too Many Requests"))
                  (handleAirdrop connected_sdk st).2
                  (handleAirdrop connected_sdk st).1).1 in
  map (λ e, (type e, message e, details e)) (logs final)
  = [(error, "Rate limited! Use faucet.solana.com instead", None)].
Proof. vm_compute. reflexivity. Qed.

(** ** Force reset *)

Section ForceResetStorage.
Variable toLowerCase : string -> string.
Implicit Types (st : App) (key k : string) (ks : list string).

Lemma removeItem_rest key st :
  logs (removeItem key st) = logs st
  ∧ transactions (removeItem key st) = transactions st
  ∧ world (removeItem key st) = world st
  ∧ draws (removeItem key st) = draws st
  ∧ has_window (browser (removeItem key st)) = has_window (browser st).
Proof. done. Qed.

Lemma lookup_remove_if_set key k st :
  localStorage (browser (remove_if_set st key)) !! k
  = if decide (k = key) then
      (if is_set (localStorage (browser st) !! k) then None
       else localStorage (browser st) !! k)
    else localStorage (browser st) !! k.
Proof.
  unfold remove_if_set, getItem.
  destruct (decide (k = key)) as [->|Hne].
  - destruct (localStorage (browser st) !! key) as [[]|] eqn:Hk; simpl;
      rewrite ?lookup_delete_eq, ?Hk; done.
  - destruct (localStorage (browser st) !! key) as [[]|] eqn:Hk; simpl;
      rewrite ?lookup_delete_ne; done.
Qed.

Lemma lookup_remove_named ks k st :
  localStorage (browser (foldl remove_if_set st ks)) !! k
  = if bool_decide (k ∈ ks) && is_set (localStorage (browser st) !! k)
    then None else localStorage (browser st) !! k.
Proof.
  revert st. induction ks as [|key ks IH]; intros st.
  - by rewrite bool_decide_eq_false_2 by apply not_elem_of_nil.
  - cbn [foldl]. rewrite IH, lookup_remove_if_set.
    destruct (decide (k = key)) as [->|Hne].
    + rewrite (bool_decide_eq_true_2 (key ∈ key :: ks)) by apply list_elem_of_here.
      destruct (is_set (localStorage (browser st) !! key)) eqn:Hset.
      * simpl. by rewrite andb_false_r.
      * rewrite Hset. by rewrite andb_false_r.
    + assert (bool_decide (k ∈ key :: ks) = bool_decide (k ∈ ks)) as ->.
      { apply bool_decide_ext. rewrite elem_of_cons.
        split; [by intros [?|?]|by right]. }
      done.
Qed.

Lemma lookup_remove_related ks k st :
  localStorage (browser (foldl (remove_if_related toLowerCase) st ks)) !! k
  = if bool_decide (k ∈ ks) && lazor_related toLowerCase k
    then None else localStorage (browser st) !! k.
Proof.
  revert st. induction ks as [|key ks IH]; intros st.
  - by rewrite bool_decide_eq_false_2 by apply not_elem_of_nil.
  - cbn [foldl]. rewrite IH. unfold remove_if_related.
    destruct (decide (k = key)) as [->|Hne].
    + rewrite (bool_decide_eq_true_2 (key ∈ key :: ks)) by apply list_elem_of_here.
      destruct (lazor_related toLowerCase key) eqn:Hrel.
      * simpl. rewrite lookup_delete_eq. by destruct (_ && _).
      * by rewrite andb_false_r.
    + assert (bool_decide (k ∈ key :: ks) = bool_decide (k ∈ ks)) as ->.
      { apply bool_decide_ext. rewrite elem_of_cons.
        split; [by intros [?|?]|by right]. }
      destruct (lazor_related toLowerCase key); [|done].
      simpl. by rewrite lookup_delete_ne.
Qed.

Lemma storage_keys_spec k st :
  k ∈ storage_keys st ↔ is_Some (localStorage (browser st) !! k).
Proof.
  unfold storage_keys. rewrite list_elem_of_fmap. split.
  - intros ([k' x] & -> & Hin). apply elem_of_map_to_list in Hin. by exists x.
  - intros [x Hx]. exists (k, x). split; [done|]. by apply elem_of_map_to_list.
Qed.

(** The storage after the two loops, key by key. *)
Lemma lookup_clear_lazorkit_storage k st :
  localStorage (browser (clear_lazorkit_storage toLowerCase st)) !! k
  = if lazor_related toLowerCase k then None
    else if bool_decide (k ∈ lazorkitKeys) && is_set (localStorage (browser st) !! k)
         then None
         else localStorage (browser st) !! k.
Proof.
  unfold clear_lazorkit_storage. cbv zeta.
  rewrite lookup_remove_related, lookup_remove_named.
  destruct (lazor_related toLowerCase k); [|by rewrite andb_false_r].
  rewrite andb_true_r.
  destruct (decide (k ∈ storage_keys (foldl remove_if_set st lazorkitKeys)))
    as [Hin|Hout].
  - by rewrite bool_decide_eq_true_2.
  - rewrite bool_decide_eq_false_2 by done.
    rewrite storage_keys_spec, lookup_remove_named in Hout.
    destruct (_ && _); [done|].
    destruct (localStorage (browser st) !! k); [|done].
    exfalso. apply Hout. by eexists.
Qed.

Lemma foldl_removals_rest (f : App -> string -> App) ks st :
  (∀ s key, f s key = s ∨ f s key = removeItem key s) ->
  logs (foldl f st ks) = logs st
  ∧ transactions (foldl f st ks) = transactions st
  ∧ indicators (foldl f st ks) = indicators st
  ∧ selectedPlan (foldl f st ks) = selectedPlan st
  ∧ world (foldl f st ks) = world st
  ∧ draws (foldl f st ks) = draws st
  ∧ has_window (browser (foldl f st ks)) = has_window (browser st).
Proof.
  intros Hf. revert st. induction ks as [|key ks IH]; intros st; [done|].
  cbn [foldl]. destruct (IH (f st key)) as (-> & -> & -> & -> & -> & -> & ->).
  by destruct (Hf st key) as [-> | ->].
Qed.

Lemma clear_lazorkit_storage_rest st :
  logs (clear_lazorkit_storage toLowerCase st) = logs st
  ∧ transactions (clear_lazorkit_storage toLowerCase st) = transactions st
  ∧ indicators (clear_lazorkit_storage toLowerCase st) = indicators st
  ∧ selectedPlan (clear_lazorkit_storage toLowerCase st) = selectedPlan st
  ∧ world (clear_lazorkit_storage toLowerCase st) = world st
  ∧ draws (clear_lazorkit_storage toLowerCase st) = draws st
  ∧ has_window (browser (clear_lazorkit_storage toLowerCase st))
    = has_window (browser st).
Proof.
  unfold clear_lazorkit_storage. cbv zeta.
  set (st1 := foldl remove_if_set st lazorkitKeys).
  destruct (foldl_removals_rest (remove_if_related toLowerCase)
              (storage_keys st1) st1) as (-> & -> & -> & -> & -> & -> & ->).
  { intros s key. unfold remove_if_related.
    destruct (lazor_related toLowerCase key); auto. }
  apply foldl_removals_rest.
  intros s key. unfold remove_if_set.
  destruct (getItem key s) as [[]|]; auto.
Qed.
End ForceResetStorage.

Section ForceResetOutcome.
Variable toLowerCase : string -> string.
Implicit Types (st : App).

Lemma addLog_rest ty m d st :
  balance (addLog ty m d st) = balance st
  ∧ lastSignature (addLog ty m d st) = lastSignature st
  ∧ selectedPlan (addLog ty m d st) = selectedPlan st
  ∧ indicators (addLog ty m d st) = indicators st.
Proof.
  unfold addLog, addLog_updater, newLogEntry, randomUUID, newDate, indicators.
  cbn [fst snd balance lastSignature selectedPlan refs busy setLogsTo].
  match goal with
  | |- context [saveToStorage ?k ?v ?s] =>
      destruct (saveToStorage_frame k v s)
        as (_ & _ & -> & -> & -> & -> & -> & _)
  end.
  done.
Qed.

Lemma addLog_other_keys ty m d st k :
  k ≠ STORAGE_KEYS.LOGS ->
  localStorage (browser (addLog ty m d st)) !! k = localStorage (browser st) !! k.
Proof.
  intros Hne.
  unfold addLog, addLog_updater, newLogEntry, randomUUID, newDate.
  cbn [fst snd browser setLogsTo].
  match goal with
  | |- context [saveToStorage ?key ?v ?s] =>
      destruct (saveToStorage_browser key v s) as [-> | ->]
  end; [done|].
  cbn [localStorage]. by rewrite lookup_insert_ne.
Qed.
Lemma logs_addLog_on_empty ty m d st :
  logs st = [] -> logs (addLog ty m d st) = [(newLogEntry ty m d st).1].
Proof.
  intros Hempty. rewrite logs_addLog, Hempty. unfold baseLogs.
  by destruct (decide (ty = pending)).
Qed.

Lemma newLogEntry_fields ty m d st :
  type (newLogEntry ty m d st).1 = ty
  ∧ message (newLogEntry ty m d st).1 = m
  ∧ details (newLogEntry ty m d st).1 = d.
Proof. done. Qed.

Lemma filter_notPending_singleton (e : LogEntry) :
  type e ≠ pending -> filter notPending [e] = [e].
Proof. intros He. by rewrite filter_cons_True. Qed.

Lemma addLog_stored_at ty m d st :
  has_window (browser st) = true ->
  setItem_throws_at (world st) (S (S (draws st))) = false ->
  localStorage (browser (addLog ty m d st)) !! STORAGE_KEYS.LOGS
  = Some (Serialized (VLogs (filter notPending (logs (addLog ty m d st))))).
Proof.
  intros Hw Hq.
  unfold addLog, addLog_updater, newLogEntry, randomUUID, newDate.
  cbn [fst snd].
  match goal with
  | |- context [setLogsTo ?l (saveToStorage ?k ?v ?s)] =>
      pose proof (saveToStorage_accepted k v s Hw Hq) as Hb
  end.
  cbn [browser setLogsTo logs]. rewrite Hb. cbn [localStorage].
  apply lookup_insert_eq.
Qed.
End ForceResetOutcome.

Lemma reset_report_outcome (cleared : App) :
  let st' := addLog info "Reset complete! Reload page and reconnect." None
               (setLastSignature None
                  (setBalance 0 (setTransactionsTo [] (setLogsTo [] cleared)))) in
  (∃ e, logs st' = [e] ∧ type e = info
        ∧ message e = "Reset complete! Reload page and reconnect.")
  ∧ transactions st' = [] ∧ balance st' = 0%Z ∧ lastSignature st' = None
  ∧ indicators st' = indicators cleared
  ∧ (∀ k, k ≠ STORAGE_KEYS.LOGS ->
       localStorage (browser st') !! k = localStorage (browser cleared) !! k)
  ∧ (has_window (browser cleared) = true ->
     setItem_throws_at (world cleared) (S (S (draws cleared))) = false ->
     localStorage (browser st') !! STORAGE_KEYS.LOGS
     = Some (Serialized (VLogs (logs st')))).
Proof.
  intros st'. unfold st'.
  set (blank := setLastSignature None
                  (setBalance 0 (setTransactionsTo [] (setLogsTo [] cleared)))).
  destruct (addLog_rest info "Reset complete! Reload page and reconnect." None blank)
    as (Hbal & Hsig & _ & Hind').
  split; [|split; [|split; [|split; [|split; [|split]]]]].
  - rewrite (logs_addLog_on_empty _ _ _ blank eq_refl).
    eexists. split; [reflexivity|]. split; apply newLogEntry_fields.
  - rewrite transactions_addLog. reflexivity.
  - rewrite Hbal. reflexivity.
  - rewrite Hsig. reflexivity.
  - rewrite Hind'. reflexivity.
  - intros k Hne. rewrite addLog_other_keys by exact Hne. reflexivity.
  - intros Hw Hq. rewrite addLog_stored_at; [|exact Hw|exact Hq].
    rewrite (logs_addLog_on_empty _ _ _ blank eq_refl).
    rewrite filter_notPending_singleton; [reflexivity|].
    by rewrite (proj1 (newLogEntry_fields _ _ _ _)).
Qed.

Lemma handleForceReset_resume_state
    (toLowerCase : string -> string) (settled : Settled unit) (st : App) :
  (handleForceReset_resume toLowerCase settled st).1
  = addLog info "Reset complete! Reload page and reconnect." None
      (setLastSignature None
         (setBalance 0
            (setTransactionsTo []
               (setLogsTo [] (clear_lazorkit_storage toLowerCase st))))).
Proof. reflexivity. Qed.

(** X9. Force reset, whether the awaited [disconnect()] is fulfilled or
    rejected: the log is the single entry that reports the reset, the history
    is empty, the balance is zero and no signature is remembered; the refs
    and busy indicators are as they were.  In storage, apart from the log
    key, every key whose lower-cased name contains lazor or passkey is gone,
    every named key that held a non-empty text is gone, and every other key
    is untouched.  The log key itself is written again by the report: with a
    window and an accepted write it holds exactly the reported log. *)
Theorem force_reset_outcome
    (toLowerCase : string -> string) (settled : Settled unit) (st : App) :
  let st' := (handleForceReset_resume toLowerCase settled st).1 in
  (∃ e, logs st' = [e] ∧ type e = info
        ∧ message e = "Reset complete! Reload page and reconnect.")
  ∧ transactions st' = [] ∧ balance st' = 0%Z ∧ lastSignature st' = None
  ∧ indicators st' = indicators st
  ∧ (∀ k, k ≠ STORAGE_KEYS.LOGS ->
       localStorage (browser st') !! k
       = if lazor_related toLowerCase k then None
         else if bool_decide (k ∈ lazorkitKeys)
                 && is_set (localStorage (browser st) !! k)
              then None
              else localStorage (browser st) !! k)
  ∧ (has_window (browser st) = true ->
     setItem_throws_at (world st) (S (S (draws st))) = false ->
     localStorage (browser st') !! STORAGE_KEYS.LOGS
     = Some (Serialized (VLogs (logs st')))).
Proof.
  cbv zeta. rewrite handleForceReset_resume_state.
  pose proof (reset_report_outcome (clear_lazorkit_storage toLowerCase st)) as Hreport.
  cbv zeta in Hreport.
  destruct Hreport as (Hlog & Htx & Hbal & Hsig & Hind & Hkeys & Hlogkey).
  destruct (clear_lazorkit_storage_rest toLowerCase st)
    as (_ & _ & Hind0 & _ & Hworld & Hdraws & Hwin).
  split; [exact Hlog|]. split; [exact Htx|]. split; [exact Hbal|].
  split; [exact Hsig|]. split; [|split].
  - rewrite Hind. exact Hind0.
  - intros k Hne. rewrite (Hkeys k Hne). apply lookup_clear_lazorkit_storage.
  - intros Hw Hq. apply Hlogkey.
    + rewrite Hwin. exact Hw.
    + rewrite Hworld, Hdraws. exact Hq.
Qed.


(** A storage with the page's three keys, a credential, a key that is
    passkey-related only up to case and a foreign key: after the reset the
    foreign key and the rewritten log key are what is left. *)
Example force_reset_on_a_used_page :
  let st :=
    mkApp 1000000000
      [mkLogEntry "a" 5 success "Connected successfully!" None]
      [mkStoredTransaction "5xYz" transfer 4 tx_success None]
      (Some "5xYz") None
      (mkFlags false false false false) (mkRefs false false false false)
      (mkBrowser true
         (<[STORAGE_KEYS.LOGS := Serialized (VLogs [])]>
          (<[STORAGE_KEYS.TRANSACTIONS := Serialized (VTxs [])]>
           (<[STORAGE_KEYS.LAST_WALLET := Serialized (VStr "7xKX")]>
            (<["CREDENTIAL_ID" := Malformed]>
             (<["MyPassKeyCache" := EmptyText]>
              (<["theme" := Serialized (VStr "dark")]> ∅))))))
         [] [] 0)
      calm_world 0 in
  let st' := (handleForceReset_resume ascii_lower (Rejected (ErrorObj "offline")) st).1 in
  storage_keys st' ≡ₚ ["theme"; STORAGE_KEYS.LOGS]
  ∧ loadFromStorage STORAGE_KEYS.LOGS (VLogs []) st'
    = VLogs [mkLogEntry "0" 1 info "Reset complete! Reload page and reconnect." None]
  ∧ transactions st' = [] ∧ balance st' = 0%Z.
Proof.
  vm_compute. repeat split; try reflexivity.
  first [reflexivity | apply perm_swap].
Qed.
